(** * The astronomy engine of the star-map service (utils/astronomy.ts)

    A shallow embedding of the pure functions of [utils/astronomy.ts]
    ([getJulianDay], [getLocalSiderealTime], [getMoonPhase],
    [getVisibleConstellations], [getVisiblePlanets], [generateMoonPhaseSVG],
    [generateStarMapSVG] with its [getStarField], [validateUserInput]) and of
    the part of the star-map API handler that assembles the response, with
    the ordinal suffix of its [formatDate].

    Conventions of the embedding.
    - A JavaScript number that the code only ever uses as an integer (calendar
      fields, day numbers, array indices) is a [Z]; every other number is an
      exact rational [Q].  Rounding of IEEE doubles, NaN and the infinities are
      not modelled.  [Math.cos] and [Math.sin] have no rational model: the
      quantities computed with them are real numbers [R].  Where a property
      of the moon graphic or of a magnitude turns on a threshold, it is stated
      a [roundingMargin] away from it, so that it is out of reach of the
      rounding that is not modelled.
    - The remainder operator [%] takes the sign of the dividend
      (ECMA-262 Number::remainder): [Z.rem] on integers, [js_rem] on rationals.
    - A [Date] is its time value, the milliseconds since 1970-01-01T00:00:00Z.
      The getters follow ECMA-262 section 21.4.1; the local-time getters
      ([getFullYear], [getMonth], [getDate]) read the host's offset
      [LocalTZA], the UTC getters do not.
    - Markup produced by template strings is kept as a structured value
      (elements with their attributes), not as text.  Text whose code units
      matter (the emoji literals, the input of [validateUserInput]) is a
      list of UTF-16 code units. *)

From Stdlib Require Import ZArith QArith Qround Qabs Reals Qreals.
From Stdlib Require Import Lia Psatz List Permutation Sorted String Bool.
Import ListNotations.

Local Open Scope Z_scope.

(* ------------------------------------------------------------------ *)
(** ** JavaScript numbers *)

(** [x < y] on rationals, as a boolean. *)
Definition Qltb (x y : Q) : bool :=
  (Qnum x * QDen y <? Qnum y * QDen x)%Z.

(** [x >= y], [x > y] and [x <= y] in terms of the two primitive tests. *)
Definition Qgeb (x y : Q) : bool := Qle_bool y x.
Definition Qgtb (x y : Q) : bool := Qltb y x.

(** Rounding towards zero: the integer quotient chosen by [%]. *)
Definition Qtrunc (q : Q) : Z :=
  if Qle_bool 0 q then Qfloor q else Qceiling q.

(** [a % b] on non-integer numbers: [a - b * trunc (a / b)]. *)
Definition js_rem (a b : Q) : Q :=
  (a - b * inject_Z (Qtrunc (a / b)))%Q.

(* ------------------------------------------------------------------ *)
(** ** Dates (ECMA-262, 21.4.1) *)

Record Date : Set := mkDate { timeValue : Z }.

Definition msPerDay : Z := 86400000.
Definition msPerHour : Z := 3600000.
Definition msPerMinute : Z := 60000.
Definition msPerSecond : Z := 1000.

Definition Day (t : Z) : Z := t / msPerDay.
Definition TimeWithinDay (t : Z) : Z := t mod msPerDay.

Definition DaysInYear (y : Z) : Z :=
  if negb (y mod 4 =? 0) then 365
  else if negb (y mod 100 =? 0) then 366
  else if negb (y mod 400 =? 0) then 365
  else 366.

Definition DayFromYear (y : Z) : Z :=
  365 * (y - 1970) + (y - 1969) / 4 - (y - 1901) / 100 + (y - 1601) / 400.

Definition TimeFromYear (y : Z) : Z := msPerDay * DayFromYear y.

(** The largest [y] with [TimeFromYear y <= t]: the mean year length gives an
    estimate that is off by at most one ([YearFromTime_spec] below). *)
Definition YearFromTime (t : Z) : Z :=
  let y := 1970 + (400 * Day t) / 146097 in
  if t <? TimeFromYear y then y - 1
  else if TimeFromYear (y + 1) <=? t then y + 1
  else y.

Definition InLeapYear (t : Z) : Z :=
  if DaysInYear (YearFromTime t) =? 366 then 1 else 0.

Definition DayWithinYear (t : Z) : Z := Day t - DayFromYear (YearFromTime t).

Definition MonthFromTime (t : Z) : Z :=
  let d := DayWithinYear t in
  let l := InLeapYear t in
  if d <? 31 then 0
  else if d <? 59 + l then 1
  else if d <? 90 + l then 2
  else if d <? 120 + l then 3
  else if d <? 151 + l then 4
  else if d <? 181 + l then 5
  else if d <? 212 + l then 6
  else if d <? 243 + l then 7
  else if d <? 273 + l then 8
  else if d <? 304 + l then 9
  else if d <? 334 + l then 10
  else 11.

Definition DateFromTime (t : Z) : Z :=
  let d := DayWithinYear t in
  let l := InLeapYear t in
  match MonthFromTime t with
  | 0 => d + 1
  | 1 => d - 30
  | 2 => d - 58 - l
  | 3 => d - 89 - l
  | 4 => d - 119 - l
  | 5 => d - 150 - l
  | 6 => d - 180 - l
  | 7 => d - 211 - l
  | 8 => d - 242 - l
  | 9 => d - 272 - l
  | 10 => d - 303 - l
  | _ => d - 333 - l
  end.

Definition HourFromTime (t : Z) : Z := (t / msPerHour) mod 24.
Definition MinFromTime (t : Z) : Z := (t / msPerMinute) mod 60.
Definition SecFromTime (t : Z) : Z := (t / msPerSecond) mod 60.

Definition getUTCHours (d : Date) : Z := HourFromTime (timeValue d).
Definition getUTCMinutes (d : Date) : Z := MinFromTime (timeValue d).
Definition getUTCSeconds (d : Date) : Z := SecFromTime (timeValue d).

(* ------------------------------------------------------------------ *)
(** ** Data of utils/astronomy.ts *)

(** An array element: a string, or [undefined] (read past either end). *)
Definition JsString : Set := option string.

(** Text as JavaScript holds it: a sequence of UTF-16 code units. *)
Definition JsText : Set := list Z.

Definition arrayGet (xs : list string) (i : Z) : JsString :=
  if i <? 0 then None else nth_error xs (Z.to_nat i).

Definition includes (xs : list JsString) (x : string) : bool :=
  existsb (fun e => match e with
                    | Some s => String.eqb s x
                    | None => false
                    end) xs.

Module MoonPhaseData.
Record t : Type := mk {
    name : string;
    phase : Q;          (* documented: 0-1, 0 = new, 0.5 = full *)
    illumination : R;   (* documented: 0-1 *)
    emoji : JsText      (* the literal's UTF-16 code units *)
  }.
End MoonPhaseData.

Module PlanetData.
Record t : Set := mk {
    name : string;
    description : string;
    magnitude : Q;
    isVisible : bool
  }.
End PlanetData.

Inductive Season : Set := winter | spring | summer | fall.

Record SeasonalConstellation : Set := mkSC { sc_name : string; sc_ra : Q }.

(** Markup of [generateMoonPhaseSVG]: the [svg] element with its children.
    Coordinates are whole numbers; only an arc's radii can be fractional. *)
Inductive PathCommand : Type :=
| MoveTo (x y : Z)
| Arc (rx ry : R) (rotation : Z) (largeArc sweep : bool) (x y : Z)
| LineTo (x y : Z)
| ClosePath.

Inductive SvgElement : Type :=
| Circle (cx cy r : Z) (fill stroke : string) (strokeWidth : Z)
| Path (d : list PathCommand) (fill : string).

Record Svg : Type := mkSvg {
  svgWidth : Z;
  svgHeight : Z;
  viewBox : Z * Z * Z * Z;
  children : list SvgElement
}.

(** The response of the star-map API handler, as far as it is assembled from
    the engine: [date], [formattedDate], [location] and [starMapSvg] are text
    or markup that no property below reads, and are left out.  [svgPath] is
    [None] when the markup of the moon graphic is outside the model (see
    [replaceFill]). *)
Module ResponseMoonPhase.
Record t : Type := mk {
    name : string;
    illumination : R;
    emoji : JsText;
    svgPath : option Svg
  }.
End ResponseMoonPhase.

Module PlanetPosition.
Record t : Set := mk {
    name : string;
    position : string;
    magnitude : Q;
    isVisible : bool
  }.
End PlanetPosition.

Module StarMapResponse.
Record t : Type := mk {
    constellations : list JsString;
    planets : list PlanetPosition.t;
    moonPhase : ResponseMoonPhase.t
  }.
End StarMapResponse.

(** [toLowerCase] on the letters A-Z. *)
Definition lowerAscii (c : Ascii.ascii) : Ascii.ascii :=
  let n := Ascii.nat_of_ascii c in
  if ((65 <=? n) && (n <=? 90))%nat then Ascii.ascii_of_nat (n + 32) else c.

Fixpoint toLowerCase (s : string) : string :=
  match s with
  | EmptyString => EmptyString
  | String c rest => String (lowerAscii c) (toLowerCase rest)
  end.

(** The text holds a dollar sign (character 36). *)
Fixpoint hasDollar (s : string) : bool :=
  match s with
  | EmptyString => false
  | String c rest => Ascii.eqb c (Ascii.ascii_of_nat 36) || hasDollar rest
  end.

Section Host.

(** The host's local time zone adjustment in milliseconds at a UTC time
    value; [fun _ => 0] on a host that runs in UTC. *)
Variable LocalTZA : Z -> Z.

Definition LocalTime (t : Z) : Z := t + LocalTZA t.

Definition getFullYear (d : Date) : Z := YearFromTime (LocalTime (timeValue d)).
Definition getMonth (d : Date) : Z := MonthFromTime (LocalTime (timeValue d)).
Definition getDate (d : Date) : Z := DateFromTime (LocalTime (timeValue d)).

(* ------------------------------------------------------------------ *)
(** ** utils/astronomy.ts *)

(** The whole-day part of [getJulianDay], from the calendar fields. *)
Definition julianDayNumber (year month day : Z) : Z :=
  let a := (14 - month) / 12 in
  let y := year + 4800 - a in
  let m := month + 12 * a - 3 in
  let jd := day + (153 * m + 2) / 5 + 365 * y + y / 4 in
  jd - y / 100 + y / 400 - 32045.

Definition getJulianDay (date : Date) : Q :=
  let year := getFullYear date in
  let month := getMonth date + 1 in
  let day := getDate date in
  let jd := julianDayNumber year month day in
  let hours := getUTCHours date in
  let minutes := getUTCMinutes date in
  let seconds := getUTCSeconds date in
  (inject_Z jd
   + ((inject_Z hours - 12) / 24 + inject_Z minutes / 1440
      + inject_Z seconds / 86400))%Q.

(** The first half of [getLocalSiderealTime]: Greenwich sidereal time,
    normalized. *)
Definition greenwichSiderealTime (date : Date) : Q :=
  let jd := getJulianDay date in
  let t := ((jd - 2451545.0) / 36525)%Q in
  let gst := (280.46061837 + 360.98564736629 * (jd - 2451545.0)
              + 0.000387933 * t * t - t * t * t / 38710000)%Q in
  js_rem (js_rem gst 360 + 360) 360.

Definition getLocalSiderealTime (date : Date) (longitude : Q) : Q :=
  let gst := greenwichSiderealTime date in
  let lst := (gst + longitude)%Q in
  let lst := js_rem (js_rem lst 360 + 360) 360 in
  lst.

(** The name and emoji chosen by the if-chain of [getMoonPhase].  The emoji
    literals are kept as the source file stores them: four code units each,
    U+00F0 U+0178 U+0152 and a last unit that tells them apart. *)
Definition phaseNameEmoji (phase : Q) : string * JsText :=
  if Qltb phase 0.025 || Qgeb phase 0.975 then
    ("New Moon"%string, [240; 376; 338; 8216])
  else if Qltb phase 0.225 then
    ("Waxing Crescent"%string, [240; 376; 338; 8217])
  else if Qltb phase 0.275 then
    ("First Quarter"%string, [240; 376; 338; 8220])
  else if Qltb phase 0.475 then
    ("Waxing Gibbous"%string, [240; 376; 338; 8221])
  else if Qltb phase 0.525 then
    ("Full Moon"%string, [240; 376; 338; 8226])
  else if Qltb phase 0.725 then
    ("Waning Gibbous"%string, [240; 376; 338; 8211])
  else if Qltb phase 0.775 then
    ("Last Quarter"%string, [240; 376; 338; 8212])
  else ("Waning Crescent"%string, [240; 376; 338; 732]).

Definition getMoonPhase (date : Date) : MoonPhaseData.t :=
  let jd := getJulianDay date in
  let lunarCycle := 29.53059%Q in
  let newMoonRef := 2451550.1%Q in
  let daysFromNewMoon := js_rem (jd - newMoonRef) lunarCycle in
  let phase := (daysFromNewMoon / lunarCycle)%Q in
  let illumination := (0.5 * (1 - cos (2 * PI * Q2R phase)))%R in
  let (name, emoji) := phaseNameEmoji phase in
  MoonPhaseData.mk name phase illumination emoji.

Definition constellationsBySeason (season : Season)
  : list SeasonalConstellation :=
  match season with
  | winter =>
      [ mkSC "Orion" 5.5; mkSC "Canis Major" 7; mkSC "Canis Minor" 8;
        mkSC "Gemini" 7; mkSC "Taurus" 4.5; mkSC "Auriga" 6;
        mkSC "Perseus" 3; mkSC "Eridanus" 3.5; mkSC "Lepus" 6 ]
  | spring =>
      [ mkSC "Leo" 11; mkSC "Virgo" 13; mkSC "Ursa Major" 11;
        mkSC "Bootes" 15; mkSC "Corona Borealis" 16;
        mkSC "Canes Venatici" 13; mkSC "Coma Berenices" 13;
        mkSC "Hydra" 12 ]
  | summer =>
      [ mkSC "Cygnus" 20.5; mkSC "Lyra" 19; mkSC "Aquila" 20;
        mkSC "Hercules" 17; mkSC "Scorpius" 17; mkSC "Sagittarius" 19;
        mkSC "Ophiuchus" 17.5; mkSC "Libra" 15.5 ]
  | fall =>
      [ mkSC "Pegasus" 22; mkSC "Andromeda" 1; mkSC "Pisces" 1;
        mkSC "Aquarius" 23; mkSC "Capricornus" 21; mkSC "Cetus" 2;
        mkSC "Phoenix" 1; mkSC "Grus" 22.5 ]
  end.

Definition circumNorth : list string :=
  [ "Ursa Minor"; "Cassiopeia"; "Cepheus"; "Draco"; "Camelopardalis" ]%string.
Definition circumSouth : list string :=
  [ "Crux"; "Centaurus"; "Carina"; "Octans"; "Tucana" ]%string.
Definition common : list string :=
  [ "Orion"; "Ursa Major"; "Cassiopeia"; "Crux"; "Scorpius" ]%string.

(** The month/day thresholds shared by both hemispheres: which of the four
    branches of the season test is taken. *)
Definition seasonBranch (month day : Z) : nat :=
  if (month =? 11) && (day >=? 21) || (month <? 2)
     || (month =? 2) && (day <? 20) then 0%nat
  else if (month =? 2) && (day >=? 20) || (month <? 5)
          || (month =? 5) && (day <? 21) then 1%nat
  else if (month =? 5) && (day >=? 21) || (month <? 8)
          || (month =? 8) && (day <? 23) then 2%nat
  else 3%nat.

Definition seasonOf (isNorthernHemisphere : bool) (month day : Z) : Season :=
  if isNorthernHemisphere then
    match seasonBranch month day with
    | 0%nat => winter | 1%nat => spring | 2%nat => summer | _ => fall
    end
  else
    match seasonBranch month day with
    | 0%nat => summer | 1%nat => fall | 2%nat => winter | _ => spring
    end.

(** Circular distance in hours between a right ascension and the LST. *)
Definition hourDiff (lstHours ra : Q) : Q :=
  let d := Qabs (ra - lstHours) in
  if Qgtb d 12 then (24 - d)%Q else d.

(** [Array.prototype.sort] with the comparator [diffA - diffB]: the stable
    rearrangement by ascending [hourDiff]. *)
Fixpoint insertByDiff (lstHours : Q) (c : SeasonalConstellation)
  (sorted : list SeasonalConstellation) : list SeasonalConstellation :=
  match sorted with
  | [] => [c]
  | c' :: rest =>
      if Qltb (hourDiff lstHours (sc_ra c')) (hourDiff lstHours (sc_ra c))
      then c' :: insertByDiff lstHours c rest
      else c :: sorted
  end.

Definition sortByDiff (lstHours : Q) (cs : list SeasonalConstellation)
  : list SeasonalConstellation :=
  fold_right (insertByDiff lstHours) [] cs.

(** The loop over [common]: push what is missing, stop at five. *)
Fixpoint addCommon (cs : list string) (result : list JsString)
  : list JsString :=
  match cs with
  | [] => result
  | constellation :: rest =>
      if negb (includes result constellation) then
        let result := result ++ [Some constellation] in
        if (5 <=? List.length result)%nat then result else addCommon rest result
      else addCommon rest result
  end.

Definition getVisibleConstellations (date : Date) (latitude longitude : Q)
  : list JsString :=
  let month := getMonth date in
  let day := getDate date in
  let lst := getLocalSiderealTime date longitude in
  let isNorthernHemisphere := Qgeb latitude 0 in
  let season := seasonOf isNorthernHemisphere month day in
  let lstHours := (lst / 15)%Q in
  let visibleSeasonalRaw :=
    filter (fun c => Qltb (hourDiff lstHours (sc_ra c)) 6)
           (constellationsBySeason season) in
  let visibleSeasonal :=
    map sc_name (firstn 5 (sortByDiff lstHours visibleSeasonalRaw)) in
  let circumpolar := if isNorthernHemisphere then circumNorth else circumSouth in
  let dateNum := getDate date + getMonth date * 100 + getFullYear date * 10000 in
  let circ1Index := Z.rem dateNum (Z.of_nat (List.length circumpolar)) in
  let circ2Index := Z.rem (dateNum + 2) (Z.of_nat (List.length circumpolar)) in
  let selectedCircumpolar :=
    [arrayGet circumpolar circ1Index]
    ++ (if (List.length visibleSeasonal <? 4)%nat
        then [arrayGet circumpolar circ2Index] else []) in
  let result := map Some visibleSeasonal ++ selectedCircumpolar in
  let result :=
    if (List.length result <? 4)%nat then addCommon common result else result in
  firstn 5 result.

Definition periods : list (string * Q) :=
  [ ("Mercury", 88); ("Venus", 225); ("Mars", 687); ("Jupiter", 4333);
    ("Saturn", 10759) ]%string%Q.

(** The [switch] on the planet's name: description, visibility, magnitude. *)
Definition planetCase (name : string) (phase : Q) : string * bool * Q :=
  if String.eqb name "Mercury" then
    let magnitude := (-1.9 + 7.6 * Qabs (phase - 0.5) * 2)%Q in
    if Qltb phase 0.25 || Qgtb phase 0.75 then
      ("Low on eastern horizon before sunrise"%string,
       Qgtb phase 0.8 || Qltb phase 0.2, magnitude)
    else
      ("Low on western horizon after sunset"%string,
       Qgtb phase 0.3 && Qltb phase 0.7, magnitude)
  else if String.eqb name "Venus" then
    let magnitude := (-4.6 + 1.6 * Qabs (phase - 0.5) * 2)%Q in
    if Qltb phase 0.25 || Qgtb phase 0.75 then
      ("Morning star (eastern horizon before sunrise)"%string, true, magnitude)
    else
      ("Evening star (western horizon after sunset)"%string, true, magnitude)
  else if String.eqb name "Mars" then
    let magnitude := (-2.9 + 4.7 * Qabs (phase - 0.5) * 2)%Q in
    if Qltb phase 0.25 then ("Rising in the east"%string, true, magnitude)
    else if Qltb phase 0.5 then
      ("High in the southern sky"%string, true, magnitude)
    else if Qltb phase 0.75 then
      ("Setting in the west"%string, true, magnitude)
    else ("Below horizon (not visible)"%string, false, magnitude)
  else if String.eqb name "Jupiter" then
    let magnitude := (-2.9 + 0.9 * Qabs (phase - 0.5) * 2)%Q in
    if Qltb phase 0.33 then ("Rising in the east"%string, true, magnitude)
    else if Qltb phase 0.66 then
      ("High in the southern sky"%string, true, magnitude)
    else ("Setting in the west"%string, true, magnitude)
  else if String.eqb name "Saturn" then
    let magnitude := (-0.2 + 1.4 * Qabs (phase - 0.5) * 2)%Q in
    if Qltb phase 0.25 then ("Rising in the east"%string, true, magnitude)
    else if Qltb phase 0.5 then
      ("High in the southern sky"%string, true, magnitude)
    else if Qltb phase 0.75 then
      ("Setting in the west"%string, true, magnitude)
    else ("Below horizon (not visible)"%string, false, magnitude)
  else (EmptyString, false, 0%Q).

(** One turn of the [forEach] over [periods]. *)
Definition planetStep (date : Date) (jd : Q) (result : list PlanetData.t)
  (entry : string * Q) : list PlanetData.t :=
  let (name, period) := entry in
  let j2000 := 2451545.0%Q in
  let phase := (js_rem (jd - j2000) period / period)%Q in
  let '(description, isVisible, magnitude) := planetCase name phase in
  let month := getMonth date in
  let day := getDate date in
  let dateNum := day + month * 31 in
  let '(isVisible, description) :=
    if (Z.rem dateNum 11 =? 0) && negb (String.eqb name "Jupiter")
    then (false, "Below horizon (not visible)"%string)
    else (isVisible, description) in
  if isVisible
  then result ++ [PlanetData.mk name description magnitude isVisible]
  else result.

Definition backup : list PlanetData.t :=
  [ PlanetData.mk "Venus" "Evening star (western horizon after sunset)"
      (-4.0) true;
    PlanetData.mk "Jupiter" "High in the southern sky" (-2.5) true ]%string%Q.

(** The loop over [backup]: push a planet not yet listed, stop at two. *)
Fixpoint addBackup (ps : list PlanetData.t) (result : list PlanetData.t)
  : list PlanetData.t :=
  match ps with
  | [] => result
  | planet :: rest =>
      if negb (existsb (fun p => String.eqb (PlanetData.name p)
                                            (PlanetData.name planet)) result)
      then
        let result := result ++ [planet] in
        if (2 <=? List.length result)%nat then result else addBackup rest result
      else addBackup rest result
  end.

Definition getVisiblePlanets (date : Date) (latitude longitude : Q)
  : list PlanetData.t :=
  let jd := getJulianDay date in
  let result := fold_left (planetStep date jd) periods [] in
  if (List.length result <? 2)%nat then addBackup backup result else result.

Definition generateMoonPhaseSVG (phase : Q) : Svg :=
  let phase := js_rem (js_rem phase 1 + 1) 1 in
  let width := 100 in
  let height := 100 in
  let cx := width / 2 in
  let cy := height / 2 in
  let r := 40 in
  let svg := mkSvg width height (0, 0, width, height) in
  let disc (fill : string) := Circle cx cy r fill "#444" 1 in
  if Qltb (Qabs phase) 0.01 || Qltb (Qabs (phase - 1)) 0.01 then
    svg [disc "black"%string]
  else if Qltb (Qabs (phase - 0.5)) 0.01 then
    svg [disc "white"%string]
  else
    let isWaxing := Qltb phase 0.5 in
    if Qltb (Qabs (phase - 0.25)) 0.01 then
      svg [disc "black"%string;
           Path [MoveTo cx (cy - r);
                 Arc (IZR r) (IZR r) 0 false true cx (cy + r);
                 LineTo cx (cy - r); ClosePath] "white"]
    else if Qltb (Qabs (phase - 0.75)) 0.01 then
      svg [disc "black"%string;
           Path [MoveTo cx (cy - r);
                 Arc (IZR r) (IZR r) 0 false false cx (cy + r);
                 LineTo cx (cy - r); ClosePath] "white"]
    else
      let phaseAngle := (phase * 360)%Q in
      let curveFactor :=
        (Rabs (sin (Q2R phaseAngle * PI / 180)) * IZR r)%R in
      let terminator (sweep : bool) :=
        [MoveTo cx (cy - r);
         Arc curveFactor (IZR r) 0 false sweep cx (cy + r);
         Arc (IZR r) (IZR r) 0 false (negb sweep) cx (cy - r)] in
      if isWaxing then
        if Qltb phase 0.25 then
          svg [disc "black"%string; Path (terminator true) "white"]
        else
          svg [disc "white"%string; Path (terminator false) "black"]
      else
        if Qltb phase 0.75 then
          svg [disc "white"%string; Path (terminator true) "black"]
        else
          svg [disc "black"%string; Path (terminator false) "white"].

(* ------------------------------------------------------------------ *)
(** ** The star-map API handler: assembling the response *)

(** [markup.replace(/fill="white"/g, `fill="${colour}"`)]: every [fill]
    attribute that is [white] takes the colour.  The second argument of
    [replace] is a replacement pattern: a [$] in it can start a reference to
    the matched text or to the text around it ([$&], [$$] and the like), and
    what is then written is no longer the colour.  Such markup is not
    modelled: the result is [None] as soon as the colour holds a [$]. *)
Definition replaceFill (colour : string) (svg : Svg) : option Svg :=
  if hasDollar colour then None
  else
    let swap (fill : string) :=
      if String.eqb fill "white" then colour else fill in
    Some (mkSvg (svgWidth svg) (svgHeight svg) (viewBox svg)
            (map (fun e => match e with
                           | Circle cx cy r fill stroke w =>
                               Circle cx cy r (swap fill) stroke w
                           | Path d fill => Path d (swap fill)
                           end) (children svg))).

(** The body of [handler] from the engine calls to [responseData], for a
    request that passed validation: [dateObj] is the parsed date, [lat] and
    [lng] the parsed coordinates, [sanitizedMoonColor] the sanitized colour. *)
Definition responseData (dateObj : Date) (lat lng : Q)
  (sanitizedMoonColor : string) : StarMapResponse.t :=
  let moonPhaseData := getMoonPhase dateObj in
  let visibleConstellations := getVisibleConstellations dateObj lat lng in
  let visiblePlanetsData := getVisiblePlanets dateObj lat lng in
  let planetPositions :=
    map (fun planet =>
           PlanetPosition.mk (PlanetData.name planet)
             (PlanetData.description planet) (PlanetData.magnitude planet)
             (PlanetData.isVisible planet)) visiblePlanetsData in
  let moonPhaseSvg := generateMoonPhaseSVG (MoonPhaseData.phase moonPhaseData) in
  let moonPhaseSvg :=
    if negb (String.eqb sanitizedMoonColor EmptyString)
       && negb (String.eqb (toLowerCase sanitizedMoonColor) "#ffffff")
    then replaceFill sanitizedMoonColor moonPhaseSvg
    else Some moonPhaseSvg in
  StarMapResponse.mk visibleConstellations planetPositions
    (ResponseMoonPhase.mk (MoonPhaseData.name moonPhaseData)
       (MoonPhaseData.illumination moonPhaseData)
       (MoonPhaseData.emoji moonPhaseData) moonPhaseSvg).

End Host.

(** A host whose local time is UTC. *)
Definition utcHost : Z -> Z := fun _ => 0.

(** [new Date(Date.UTC(y, mo, d, h, mi, s, ms))] for a calendar day given by
    its day number since the epoch. *)
Definition dateOfDay (day h mi s ms : Z) : Date :=
  mkDate (day * msPerDay + h * msPerHour + mi * msPerMinute
          + s * msPerSecond + ms).

(* ------------------------------------------------------------------ *)
(** ** The phase table of the specification *)

(** The eight phases, and for each the interval of phase fractions that the
    specification gives it; written from the specification's table, to be
    compared with the if-chain of [getMoonPhase]. *)
Inductive MoonPhaseName : Set :=
| NewMoon | WaxingCrescent | FirstQuarter | WaxingGibbous
| FullMoon | WaningGibbous | LastQuarter | WaningCrescent.

Definition phaseLabel (k : MoonPhaseName) : string :=
  match k with
  | NewMoon => "New Moon"
  | WaxingCrescent => "Waxing Crescent"
  | FirstQuarter => "First Quarter"
  | WaxingGibbous => "Waxing Gibbous"
  | FullMoon => "Full Moon"
  | WaningGibbous => "Waning Gibbous"
  | LastQuarter => "Last Quarter"
  | WaningCrescent => "Waning Crescent"
  end.

Definition specInterval (k : MoonPhaseName) (p : Q) : Prop :=
  match k with
  | NewMoon => (0 <= p /\ p < 0.025) \/ (0.975 <= p /\ p < 1)
  | WaxingCrescent => 0.025 <= p /\ p < 0.225
  | FirstQuarter => 0.225 <= p /\ p < 0.275
  | WaxingGibbous => 0.275 <= p /\ p < 0.475
  | FullMoon => 0.475 <= p /\ p < 0.525
  | WaningGibbous => 0.525 <= p /\ p < 0.725
  | LastQuarter => 0.725 <= p /\ p < 0.775
  | WaningCrescent => 0.775 <= p /\ p < 0.975
  end%Q.

(** Floored modulo, the remainder that is never negative for a positive
    modulus: [x - b * floor (x / b)]. *)
Definition flooredMod (x b : Q) : Q :=
  (x - b * inject_Z (Qfloor (x / b)))%Q.

(** Every planet of a list is marked visible. *)
Definition allVisible (ps : list PlanetData.t) : Prop :=
  Forall (fun p => PlanetData.isVisible p = true) ps.

(** How many names of [cs] the array [result] does not hold yet. *)
Definition missingFrom (result : list JsString) (cs : list string) : nat :=
  List.length (filter (fun c => negb (includes result c)) cs).

(* ------------------------------------------------------------------ *)
(** ** Names for intermediate values of the engine *)

(** [getVisiblePlanets]: the array after the [forEach], before the backup
    pass. *)
Definition planetsAfterForEach (tz : Z -> Z) (date : Date) : list PlanetData.t :=
  fold_left (planetStep tz date (getJulianDay tz date)) periods [].

(** [getVisiblePlanets]: the number tested against 11. *)
Definition planetDateNum (tz : Z -> Z) (date : Date) : Z :=
  getDate tz date + getMonth tz date * 31.

(** The season on the other side of the equator. *)
Definition oppositeSeason (s : Season) : Season :=
  match s with
  | winter => summer
  | spring => fall
  | summer => winter
  | fall => spring
  end.

(** [getVisibleConstellations]: the number that picks the circumpolar
    constellations. *)
Definition constellationDateNum (tz : Z -> Z) (date : Date) : Z :=
  getDate tz date + getMonth tz date * 100 + getFullYear tz date * 10000.

(** [getVisibleConstellations]: the circumpolar list of the hemisphere. *)
Definition circumpolarOf (latitude : Q) : list string :=
  if Qgeb latitude 0 then circumNorth else circumSouth.

(** [getVisibleConstellations]: the season read from the date and the
    hemisphere. *)
Definition seasonAt (tz : Z -> Z) (date : Date) (latitude : Q) : Season :=
  seasonOf (Qgeb latitude 0) (getMonth tz date) (getDate tz date).

(** [getVisibleConstellations]: the array [visibleSeasonal]. *)
Definition visibleSeasonal (tz : Z -> Z) (date : Date)
  (latitude longitude : Q) : list string :=
  let lstHours := (getLocalSiderealTime tz date longitude / 15)%Q in
  map sc_name
    (firstn 5
       (sortByDiff lstHours
          (filter (fun c => Qltb (hourDiff lstHours (sc_ra c)) 6)
                  (constellationsBySeason (seasonAt tz date latitude))))).

(** The [fill] attribute of an element of the moon graphic. *)
Definition fillOf (e : SvgElement) : string :=
  match e with
  | Circle _ _ _ fill _ _ => fill
  | Path _ fill => fill
  end.

(** The moon's disc as [generateMoonPhaseSVG] draws it. *)
Definition moonDisc (fill : string) : SvgElement :=
  Circle 50 50 40 fill "#444" 1.

(* ------------------------------------------------------------------ *)
(** ** generateStarMapSVG *)

(** The star map is kept as the list of the elements appended to the markup,
    after the opening [svg] tag of 500 by 300.  [None] stands for the
    [TypeError] raised when a star or a catalog entry that is read does not
    exist. *)
Module StarMap.

Definition width : Z := 500.
Definition height : Z := 300.

Record Figure : Set := mkFigure {
  stars : list (Z * Z);
  lines : list (nat * nat)
}.

Inductive Element : Type :=
| Rect (w h : Z) (fill : string)
| BackgroundStar (cx cy : Z) (r opacity : Q)
| Label (x y : R) (text : JsString)
| Line (x1 y1 x2 y2 : R)
| Star (cx cy : R) (r : Z).

Definition constellationData : list (string * Figure) :=
  [ ("Orion",
     mkFigure [(250, 110); (270, 100); (290, 120); (260, 150); (230, 150);
               (220, 120); (240, 130); (270, 70)]
              [(0, 1); (1, 2); (2, 3); (3, 4); (4, 5); (5, 0); (6, 0);
               (6, 3); (1, 7)]%nat);
    ("Ursa Major",
     mkFigure [(150, 80); (180, 70); (210, 60); (240, 50); (250, 80);
               (220, 100); (190, 110)]
              [(0, 1); (1, 2); (2, 3); (3, 4); (4, 5); (5, 6); (6, 0)]%nat);
    ("Cassiopeia",
     mkFigure [(300, 50); (330, 40); (360, 50); (350, 80); (320, 70)]
              [(0, 1); (1, 2); (2, 3); (3, 4); (4, 0)]%nat);
    ("Leo",
     mkFigure [(120, 150); (150, 130); (180, 120); (200, 140); (170, 160);
               (140, 170); (170, 190)]
              [(0, 1); (1, 2); (2, 3); (3, 4); (4, 5); (5, 0); (4, 6)]%nat);
    ("Scorpius",
     mkFigure [(350, 170); (360, 190); (370, 210); (380, 230); (390, 250);
               (410, 260); (400, 240); (420, 230); (430, 210)]
              [(0, 1); (1, 2); (2, 3); (3, 4); (4, 5); (4, 6); (6, 7);
               (7, 8)]%nat);
    ("Cygnus",
     mkFigure [(230, 50); (240, 70); (250, 90); (260, 110); (270, 130);
               (220, 90); (280, 90)]
              [(0, 1); (1, 2); (2, 3); (3, 4); (2, 5); (2, 6)]%nat);
    ("Lyra",
     mkFigure [(310, 90); (330, 100); (320, 120); (300, 110); (290, 100)]
              [(0, 1); (1, 2); (2, 3); (3, 4); (4, 0)]%nat);
    ("Gemini",
     mkFigure [(140, 130); (160, 120); (180, 110); (200, 120); (220, 130);
               (170, 150); (190, 160)]
              [(0, 1); (1, 2); (2, 3); (3, 4); (0, 5); (4, 6)]%nat);
    ("Taurus",
     mkFigure [(130, 170); (150, 160); (170, 150); (190, 160); (155, 175);
               (175, 185)]
              [(0, 1); (1, 2); (2, 3); (1, 4); (2, 5)]%nat);
    ("Canis Major",
     mkFigure [(330, 200); (340, 220); (320, 230); (310, 210); (350, 240)]
              [(0, 1); (1, 4); (0, 2); (0, 3)]%nat);
    ("Ursa Minor",
     mkFigure [(100, 50); (120, 40); (140, 30); (160, 20); (158, 40);
               (138, 50); (118, 60)]
              [(0, 1); (1, 2); (2, 3); (3, 4); (4, 5); (5, 6); (6, 0)]%nat);
    ("Crux",
     mkFigure [(240, 250); (250, 230); (230, 230); (260, 270)]
              [(0, 1); (2, 0); (0, 3)]%nat);
    ("Centaurus",
     mkFigure [(280, 240); (300, 250); (320, 260); (290, 270); (270, 260);
               (260, 280)]
              [(0, 1); (1, 2); (1, 3); (3, 4); (4, 5)]%nat) ]%string.

Definition defaultConstellation : Figure :=
  mkFigure [(100, 100); (120, 80); (140, 100); (120, 120)]
           [(0, 1); (1, 2); (2, 3); (3, 0)]%nat.

(** The properties every object inherits from [Object.prototype]: reading
    one of these keys from [constellationData] yields a function or an
    object, not a figure. *)
Definition objectPrototypeKeys : list string :=
  [ "constructor"; "hasOwnProperty"; "isPrototypeOf"; "propertyIsEnumerable";
    "toLocaleString"; "toString"; "valueOf"; "__proto__";
    "__defineGetter__"; "__defineSetter__"; "__lookupGetter__";
    "__lookupSetter__" ]%string.

(** What [constellationData[constellation]] reads. *)
Inductive Lookup : Set :=
| Own (f : Figure)
| Inherited
| Missing.

Definition lookup (constellation : JsString) : Lookup :=
  let key := match constellation with
             | Some s => s
             | None => "undefined"%string
             end in
  match find (fun e => String.eqb (fst e) key) constellationData with
  | Some e => Own (snd e)
  | None =>
      if existsb (String.eqb key) objectPrototypeKeys then Inherited
      else Missing
  end.

(** [constellationData[constellation] || defaultConstellation]; an inherited
    value is truthy and has no [stars]. *)
Definition conDataOf (constellation : JsString) : option Figure :=
  match lookup constellation with
  | Own f => Some f
  | Inherited => None
  | Missing => Some defaultConstellation
  end.

Definition starFieldDateNum (tz : Z -> Z) (date : Date) : Z :=
  getDate tz date + getMonth tz date * 31 + getFullYear tz date * 372.

Definition getStarField (tz : Z -> Z) (date : Date) (count : nat)
  : list (Z * Z) :=
  let dateNum := starFieldDateNum tz date in
  map (fun i : nat =>
         let seed := Z.rem (dateNum * (Z.of_nat i + 1)) 997 in
         let x := Z.rem seed width in
         let y := Z.rem (seed * 13) height in
         (x, y))
      (seq 0 count).

(** A background star: its radius and opacity follow from its position. *)
Definition backgroundStar (xy : Z * Z) : Element :=
  let (x, y) := xy in
  let size := (0.5 + inject_Z (Z.rem (x * y) 3) * 0.5)%Q in
  BackgroundStar x y size (0.3 + (size / 2) * 0.7)%Q.

Definition hourAngle (tz : Z -> Z) (date : Date) : Q :=
  (js_rem (getJulianDay tz date) 1 * 360)%Q.

Definition latOffset (lat : Q) : Q := ((90 - Qabs lat) / 90)%Q.

Definition xOffset (tz : Z -> Z) (date : Date) (lat : Q) : R :=
  ((sin (Q2R (hourAngle tz date) * PI / 180) * 50 - 25)
   * Q2R (latOffset lat))%R.

Definition yOffset (tz : Z -> Z) (date : Date) (lat : Q) : R :=
  ((cos (Q2R (hourAngle tz date) * PI / 180) * 30 - 15)
   * Q2R (latOffset lat))%R.

(** The lines of a figure; [None] when an end is not a star of the figure. *)
Fixpoint drawLines (dx dy : R) (stars : list (Z * Z)) (ls : list (nat * nat))
  : option (list Element) :=
  match ls with
  | [] => Some []
  | (s, e) :: rest =>
      match nth_error stars s, nth_error stars e, drawLines dx dy stars rest with
      | Some (x1, y1), Some (x2, y2), Some more =>
          Some (Line (IZR x1 + dx) (IZR y1 + dy) (IZR x2 + dx) (IZR y2 + dy)
                  :: more)
      | _, _, _ => None
      end
  end.

(** The stars of a figure from index [i] on: the radius cycles 2, 3, 4. *)
Fixpoint drawStars (dx dy : R) (i : nat) (stars : list (Z * Z))
  : list Element :=
  match stars with
  | [] => []
  | (x, y) :: rest =>
      Star (IZR x + dx) (IZR y + dy) (2 + Z.of_nat i mod 3)
        :: drawStars dx dy (S i) rest
  end.

(** One turn of the loop over [constellations]. *)
Definition drawConstellation (tz : Z -> Z) (date : Date) (lat : Q)
  (constellation : JsString) : option (list Element) :=
  match conDataOf constellation with
  | None => None
  | Some conData =>
      let dx := xOffset tz date lat in
      let dy := yOffset tz date lat in
      match nth_error (stars conData) 0 with
      | None => None
      | Some (x0, y0) =>
          match drawLines dx dy (stars conData) (lines conData) with
          | None => None
          | Some ls =>
              Some (Label (IZR x0 + dx) (IZR y0 + dy - 15) constellation
                      :: ls ++ drawStars dx dy 0 (stars conData))
          end
      end
  end.

Fixpoint drawConstellations (tz : Z -> Z) (date : Date) (lat : Q)
  (constellations : list JsString) : option (list Element) :=
  match constellations with
  | [] => Some []
  | c :: rest =>
      match drawConstellation tz date lat c,
            drawConstellations tz date lat rest with
      | Some els, Some more => Some (els ++ more)
      | _, _ => None
      end
  end.

Definition generateStarMapSVG (tz : Z -> Z) (constellations : list JsString)
  (date : Date) (lat lng : Q) : option (list Element) :=
  let bgStars := getStarField tz date 200 in
  match drawConstellations tz date lat constellations with
  | None => None
  | Some drawn =>
      Some (Rect width height "black" :: map backgroundStar bgStars ++ drawn)
  end.

End StarMap.

(** A figure can be drawn: it has a first star and every line joins two of
    its stars. *)
Definition figureOk (f : StarMap.Figure) : bool :=
  let n := List.length (StarMap.stars f) in
  (0 <? n)%nat
  && forallb (fun l : nat * nat => (fst l <? n)%nat && (snd l <? n)%nat)
       (StarMap.lines f).

(** The elements one constellation adds to the map: its label, its lines and
    its stars. *)
Definition figureSize (f : StarMap.Figure) : nat :=
  S (List.length (StarMap.lines f) + List.length (StarMap.stars f)).

(** The figure drawn for an array entry that is not an inherited key. *)
Definition figureOf (constellation : JsString) : StarMap.Figure :=
  match StarMap.conDataOf constellation with
  | Some f => f
  | None => StarMap.defaultConstellation
  end.

(** What [generateStarMapSVG] draws for one line of a figure: the segment
    between the two stars that the line names, moved by the offset. *)
Definition lineJoins (dx dy : R) (stars : list (Z * Z)) (l : nat * nat)
  (e : StarMap.Element) : Prop :=
  exists x1 y1 x2 y2,
    nth_error stars (fst l) = Some (x1, y1)
    /\ nth_error stars (snd l) = Some (x2, y2)
    /\ e = StarMap.Line (IZR x1 + dx) (IZR y1 + dy) (IZR x2 + dx) (IZR y2 + dy).

(** What [generateStarMapSVG] draws for one constellation: the label with
    the array entry as its text, 15 above the figure's first star; then one
    segment for each line of the figure, in order; then one disc for each
    star of the figure, in order, the radius going 2, 3, 4 and round again.
    Everything is moved by the offset. *)
Definition constellationGroup (dx dy : R) (constellation : JsString)
  (group : list StarMap.Element) : Prop :=
  let f := figureOf constellation in
  exists x0 y0 segments discs,
    nth_error (StarMap.stars f) 0 = Some (x0, y0)
    /\ group
       = StarMap.Label (IZR x0 + dx) (IZR y0 + dy - 15) constellation
         :: segments ++ discs
    /\ Forall2 (lineJoins dx dy (StarMap.stars f)) (StarMap.lines f) segments
    /\ List.length discs = List.length (StarMap.stars f)
    /\ forall i x y,
         nth_error (StarMap.stars f) i = Some (x, y) ->
         nth_error discs i
         = Some (StarMap.Star (IZR x + dx) (IZR y + dy)
                   (2 + Z.of_nat i mod 3)).

(** The magnitude ranges that the comments of [getVisiblePlanets] state for
    each planet: brightest, dimmest. *)
Definition documentedMagnitude (name : string) : option (Q * Q) :=
  if String.eqb name "Mercury" then Some (-1.9, 5.7)%Q
  else if String.eqb name "Venus" then Some (-4.6, -3.0)%Q
  else if String.eqb name "Mars" then Some (-2.9, 1.8)%Q
  else if String.eqb name "Jupiter" then Some (-2.9, -2.0)%Q
  else if String.eqb name "Saturn" then Some (-0.2, 1.2)%Q
  else None.

(** The allowance made for the rounding of double arithmetic when a number
    of the code is compared with a bound: the code's own rounding stays many
    orders of magnitude below it. *)
Definition roundingMargin : Q := 0.000000001.

(** A planet's magnitude lies in the range documented for its name, up to
    the rounding margin: at the ends of the range the doubles of the code
    overshoot in the last digit (-2.9999999999999996 for Venus at phase 0). *)
Definition magnitudeDocumented (p : PlanetData.t) : Prop :=
  exists lo hi,
    documentedMagnitude (PlanetData.name p) = Some (lo, hi)
    /\ (lo - roundingMargin <= PlanetData.magnitude p
        /\ PlanetData.magnitude p <= hi + roundingMargin)%Q.

(* ------------------------------------------------------------------ *)
(** ** formatDate and validateUserInput *)

(** The ordinal suffix that [formatDate] puts after the day. *)
Definition ordinalSuffix (day : Z) : string :=
  let lastDigit := Z.rem day 10 in
  let lastTwoDigits := Z.rem day 100 in
  if (lastTwoDigits <? 11) || (lastTwoDigits >? 13) then
    if lastDigit =? 1 then "st"
    else if lastDigit =? 2 then "nd"
    else if lastDigit =? 3 then "rd"
    else "th"
  else "th".

(** White space and line terminators, the characters that [trim] strips
    (ECMA-262, 12.2 and 12.3). *)
Definition isWhiteSpace (c : Z) : bool :=
  existsb (Z.eqb c)
    [9; 10; 11; 12; 13; 32; 160; 5760; 8232; 8233; 8239; 8287; 12288; 65279]
  || ((8192 <=? c) && (c <=? 8202)).

Fixpoint trimStart (s : JsText) : JsText :=
  match s with
  | [] => []
  | c :: rest => if isWhiteSpace c then trimStart rest else s
  end.

Definition trim (s : JsText) : JsText :=
  rev (trimStart (rev (trimStart s))).

(** The class of the regular expression: [<], [>], backslash, [/], the
    double and the single quote. *)
Definition isDangerous (c : Z) : bool :=
  existsb (Z.eqb c) [60; 62; 92; 47; 34; 39].

Definition validateUserInput (input : JsText) : JsText :=
  let sanitized := trim input in
  let sanitized := filter (fun c => negb (isDangerous c)) sanitized in
  firstn 100 sanitized.

(* ================================================================== *)
(** * Properties *)

(** ** The remainder operator *)

Local Open Scope Q_scope.

Lemma Qltb_lt x y : Qltb x y = true <-> x < y.
Proof. unfold Qltb, Qlt. apply Z.ltb_lt. Qed.

Lemma Qltb_ge x y : Qltb x y = false <-> y <= x.
Proof. unfold Qltb, Qle. rewrite Z.ltb_ge. reflexivity. Qed.

Lemma Qgeb_ge x y : Qgeb x y = true <-> y <= x.
Proof. unfold Qgeb. apply Qle_bool_iff. Qed.

Lemma Qgeb_lt x y : Qgeb x y = false <-> x < y.
Proof.
  unfold Qgeb. rewrite <- Bool.not_true_iff_false, Qle_bool_iff.
  split; [apply Qnot_le_lt | apply Qlt_not_le].
Qed.

Lemma Qltb_spec x y : reflect (x < y) (Qltb x y).
Proof. apply iff_reflect. symmetry. apply Qltb_lt. Qed.

Lemma Qtrunc_nonneg q :
  0 <= q -> inject_Z (Qtrunc q) <= q < inject_Z (Qtrunc q) + 1.
Proof.
  intros H. unfold Qtrunc.
  apply Qle_bool_iff in H. rewrite H.
  split; [apply Qfloor_le|].
  rewrite <- (inject_Z_plus _ 1). apply Qlt_floor.
Qed.

Lemma Qtrunc_nonpos q :
  q <= 0 -> inject_Z (Qtrunc q) - 1 < q <= inject_Z (Qtrunc q).
Proof.
  intros H. unfold Qtrunc.
  destruct (Qle_bool 0 q) eqn:E.
  - apply Qle_bool_iff in E.
    assert (E0 : q == 0) by (apply Qle_antisym; assumption).
    rewrite (Qfloor_comp _ _ E0). change (inject_Z (Qfloor 0)) with 0.
    split; lra.
  - split; [|apply Qle_ceiling].
    replace (inject_Z (Qceiling q) - 1) with (inject_Z (Qceiling q - 1)).
    + apply Qceiling_lt.
    + unfold Z.sub. rewrite inject_Z_plus. reflexivity.
Qed.

(** A non-negative dividend leaves a remainder in [[0, b)]. *)
Lemma js_rem_nonneg a b : 0 <= a -> 0 < b -> 0 <= js_rem a b < b.
Proof.
  intros Ha Hb. unfold js_rem.
  assert (Hq : 0 <= a / b).
  { apply Qle_shift_div_l; [assumption | lra]. }
  pose proof (Qtrunc_nonneg _ Hq) as [H1 H2].
  assert (E : a == b * (a / b)) by (field; lra).
  set (k := inject_Z (Qtrunc (a / b))) in *.
  set (q := a / b) in *.
  rewrite E. split; nra.
Qed.

(** A non-positive dividend leaves a remainder in [(-b, 0]]. *)
Lemma js_rem_nonpos a b : a <= 0 -> 0 < b -> - b < js_rem a b <= 0.
Proof.
  intros Ha Hb. unfold js_rem.
  assert (Hq : a / b <= 0).
  { apply Qle_shift_div_r; [assumption | lra]. }
  pose proof (Qtrunc_nonpos _ Hq) as [H1 H2].
  assert (E : a == b * (a / b)) by (field; lra).
  set (k := inject_Z (Qtrunc (a / b))) in *.
  set (q := a / b) in *.
  rewrite E. split; nra.
Qed.

Lemma js_rem_bounds a b : 0 < b -> - b < js_rem a b < b.
Proof.
  intros Hb. destruct (Qlt_le_dec a 0) as [H|H].
  - pose proof (js_rem_nonpos a b (Qlt_le_weak _ _ H) Hb). lra.
  - pose proof (js_rem_nonneg a b H Hb). lra.
Qed.

(** The idiom [((x % b) + b) % b] lands in [[0, b)] whatever the sign of
    [x]. *)
Lemma js_rem_normalized a b : 0 < b -> 0 <= js_rem (js_rem a b + b) b < b.
Proof.
  intros Hb. apply js_rem_nonneg; [|assumption].
  pose proof (js_rem_bounds a b Hb). lra.
Qed.

(** ** The calendar *)

Local Open Scope Z_scope.

Ltac zdm := Z.div_mod_to_equations; lia.

Lemma DayFromYear_succ y : DayFromYear (y + 1) = DayFromYear y + DaysInYear y.
Proof.
  unfold DayFromYear, DaysInYear.
  destruct (Z.eqb_spec (y mod 4) 0), (Z.eqb_spec (y mod 100) 0),
    (Z.eqb_spec (y mod 400) 0); cbn [negb]; zdm.
Qed.

Lemma Day_TimeFromYear t y : TimeFromYear y <= t <-> DayFromYear y <= Day t.
Proof. unfold TimeFromYear, Day, msPerDay. zdm. Qed.

(** [YearFromTime t] is the year that contains [t]. *)
Lemma YearFromTime_spec t :
  DayFromYear (YearFromTime t) <= Day t < DayFromYear (YearFromTime t + 1).
Proof.
  unfold YearFromTime.
  set (y := 1970 + 400 * Day t / 146097).
  assert (E : DayFromYear (y - 1) <= Day t < DayFromYear (y + 2)).
  { subst y. unfold DayFromYear. generalize (Day t). intros d. zdm. }
  pose proof (Day_TimeFromYear t y) as H1.
  pose proof (Day_TimeFromYear t (y + 1)) as H2.
  destruct (Z.ltb_spec t (TimeFromYear y)).
  - replace (y - 1 + 1) with y by lia. lia.
  - destruct (Z.leb_spec (TimeFromYear (y + 1)) t).
    + replace (y + 1 + 1) with (y + 2) by lia. lia.
    + lia.
Qed.

(** It is the largest year that starts no later than [t]. *)
Lemma YearFromTime_largest t y :
  TimeFromYear y <= t -> y <= YearFromTime t.
Proof.
  intros H. apply Day_TimeFromYear in H.
  pose proof (YearFromTime_spec t) as [_ Hs].
  destruct (Z.le_gt_cases y (YearFromTime t)) as [|Hgt]; [assumption|].
  exfalso.
  assert (Hm : forall n : nat,
             DayFromYear (YearFromTime t + 1)
             <= DayFromYear (YearFromTime t + 1 + Z.of_nat n)).
  { induction n as [|n IH].
    - rewrite Z.add_0_r. lia.
    - replace (YearFromTime t + 1 + Z.of_nat (S n))
        with (YearFromTime t + 1 + Z.of_nat n + 1) by lia.
      rewrite (DayFromYear_succ (YearFromTime t + 1 + Z.of_nat n)).
      assert (365 <= DaysInYear (YearFromTime t + 1 + Z.of_nat n)).
      { unfold DaysInYear.
        repeat match goal with
               | |- context [if ?b then _ else _] => destruct b
               end; lia. }
      lia. }
  specialize (Hm (Z.to_nat (y - (YearFromTime t + 1)))).
  replace (YearFromTime t + 1 + Z.of_nat (Z.to_nat (y - (YearFromTime t + 1))))
    with y in Hm by lia.
  lia.
Qed.

(** The day-number formula of [getJulianDay], applied to the calendar fields
    of a time value, is the day count since the epoch shifted by the Julian
    Day number of 1970-01-01. *)
Lemma julianDayNumber_civil t :
  julianDayNumber (YearFromTime t) (MonthFromTime t + 1) (DateFromTime t)
  = Day t + 2440588.
Proof.
  pose proof (YearFromTime_spec t) as Hy.
  rewrite DayFromYear_succ in Hy.
  unfold DateFromTime, MonthFromTime, InLeapYear, DayWithinYear.
  set (y := YearFromTime t) in *. set (d := Day t) in *.
  unfold julianDayNumber.
  assert (L : DaysInYear y = 365 /\ (DaysInYear y =? 366) = false /\
              (y mod 4 <> 0 \/ (y mod 100 = 0 /\ y mod 400 <> 0))
           \/ DaysInYear y = 366 /\ (DaysInYear y =? 366) = true /\
              (y mod 4 = 0 /\ (y mod 100 <> 0 \/ y mod 400 = 0))).
  { unfold DaysInYear.
    destruct (Z.eqb_spec (y mod 4) 0), (Z.eqb_spec (y mod 100) 0),
      (Z.eqb_spec (y mod 400) 0); cbn; lia. }
  unfold DayFromYear in *.
  destruct L as [(L1 & -> & L3) | (L1 & -> & L3)]; rewrite L1 in Hy;
  repeat match goal with
         | |- context [if ?a <? ?b then _ else _] =>
             destruct (Z.ltb_spec a b)
         end; cbv beta iota zeta; zdm.
Qed.

Lemma seconds_split t :
  t / msPerSecond
  = 86400 * Day t + 3600 * HourFromTime t + 60 * MinFromTime t + SecFromTime t.
Proof.
  unfold Day, HourFromTime, MinFromTime, SecFromTime,
    msPerDay, msPerHour, msPerMinute, msPerSecond.
  zdm.
Qed.

(** ** getJulianDay *)

(** On a host in UTC the Julian Day is an affine function of the whole
    seconds since the epoch. *)
Lemma getJulianDay_utc (d : Date) :
  (getJulianDay utcHost d
   == inject_Z (timeValue d / msPerSecond) / 86400 + 2440587.5)%Q.
Proof.
  unfold getJulianDay, getFullYear, getMonth, getDate, LocalTime, utcHost,
    getUTCHours, getUTCMinutes, getUTCSeconds.
  rewrite Z.add_0_r, julianDayNumber_civil, seconds_split.
  cbv zeta.
  rewrite !inject_Z_plus, !inject_Z_mult.
  field.
Qed.

(** C3, on a host five hours west of Greenwich: the calendar day is read in
    local time and the time of day in UTC, so of 18:00 and 23:00 local time on
    1 January 2024 (23:00Z, and 04:00Z of the next day) the later instant gets
    the smaller Julian Day. *)
Theorem getJulianDay_decreases_off_utc :
  let tz := fun _ : Z => -5 * msPerHour in
  let d1 := dateOfDay 19723 23 0 0 0 in
  let d2 := dateOfDay 19724 4 0 0 0 in
  timeValue d1 < timeValue d2
  /\ (getFullYear tz d1, getMonth tz d1, getDate tz d1, getUTCHours d1)
     = (2024, 0, 1, 23)
  /\ (getFullYear tz d2, getMonth tz d2, getDate tz d2, getUTCHours d2)
     = (2024, 0, 1, 4)
  /\ (getJulianDay tz d1 == 2460311 + 11 / 24)%Q
  /\ (getJulianDay tz d2 == 2460311 - 8 / 24)%Q
  /\ (getJulianDay tz d2 < getJulianDay tz d1)%Q.
Proof. cbv zeta. repeat split; vm_compute; reflexivity. Qed.

(** On a host whose local time is UTC, an earlier instant never has a larger
    Julian Day, and the Julian Day is strictly smaller exactly when the two
    instants lie in different whole seconds. *)
Theorem getJulianDay_monotone_utc (d1 d2 : Date) :
  timeValue d1 < timeValue d2 ->
  (getJulianDay utcHost d1 <= getJulianDay utcHost d2)%Q
  /\ ((getJulianDay utcHost d1 < getJulianDay utcHost d2)%Q
      <-> timeValue d1 / msPerSecond < timeValue d2 / msPerSecond).
Proof.
  intros Hlt.
  rewrite !getJulianDay_utc.
  assert (Hle : timeValue d1 / msPerSecond <= timeValue d2 / msPerSecond).
  { apply Z.div_le_mono; [reflexivity | lia]. }
  set (s1 := timeValue d1 / msPerSecond) in *.
  set (s2 := timeValue d2 / msPerSecond) in *.
  clearbody s1 s2. unfold Qdiv. change (/ 86400)%Q with (1 # 86400)%Q.
  split; [|split].
  - rewrite Zle_Qle in Hle. lra.
  - intros H. rewrite Zlt_Qlt. lra.
  - intros H. rewrite Zlt_Qlt in H. lra.
Qed.

Lemma getJulianDay_monotone_utc_witness :
  let d1 := mkDate 946684800000 in
  let d2 := mkDate 946684801000 in
  (getJulianDay utcHost d1 <= getJulianDay utcHost d2)%Q
  /\ ((getJulianDay utcHost d1 < getJulianDay utcHost d2)%Q
      <-> timeValue d1 / msPerSecond < timeValue d2 / msPerSecond).
Proof.
  exact (getJulianDay_monotone_utc (mkDate 946684800000)
           (mkDate 946684801000) eq_refl).
Defined.


(** ** getLocalSiderealTime *)

Local Open Scope Q_scope.

Lemma Qfloor_unique q k :
  inject_Z k <= q < inject_Z k + 1 -> Qfloor q = k.
Proof.
  intros [H1 H2].
  pose proof (Qfloor_le q) as F1. pose proof (Qlt_floor q) as F2.
  assert (A : (Qfloor q < k + 1)%Z).
  { rewrite Zlt_Qlt, inject_Z_plus. change (inject_Z 1) with 1. lra. }
  assert (B : (k < Qfloor q + 1)%Z).
  { rewrite Zlt_Qlt. lra. }
  lia.
Qed.

(** The double-remainder idiom is floored modulo. *)
Lemma js_rem_normalized_flooredMod x b :
  0 < b -> js_rem (js_rem x b + b) b == flooredMod x b.
Proof.
  intros Hb. pose proof (js_rem_normalized x b Hb) as R.
  unfold flooredMod. unfold js_rem in *.
  set (t1 := Qtrunc (x / b)) in *.
  set (t2 := Qtrunc ((x - b * inject_Z t1 + b) / b)) in *.
  assert (E : Qfloor (x / b) = (t1 + t2 - 1)%Z).
  { apply Qfloor_unique.
    unfold Z.sub. rewrite !inject_Z_plus.
    change (inject_Z (- (1))) with (-1).
    clearbody t1 t2. split.
    - apply Qle_shift_div_l; [assumption|]. lra.
    - apply Qlt_shift_div_r; [assumption|]. lra. }
  rewrite E. unfold Z.sub. rewrite !inject_Z_plus.
  change (inject_Z (- (1))) with (-1). ring.
Qed.

(** C8: the local sidereal time is the floored modulo 360 of Greenwich
    sidereal time plus the observer's longitude, and lies in [[0, 360)]. *)
Theorem getLocalSiderealTime_range (tz : Z -> Z) (date : Date) (longitude : Q) :
  getLocalSiderealTime tz date longitude
  == flooredMod (greenwichSiderealTime tz date + longitude) 360
  /\ 0 <= getLocalSiderealTime tz date longitude < 360.
Proof.
  unfold getLocalSiderealTime. cbv zeta. split.
  - apply js_rem_normalized_flooredMod. reflexivity.
  - apply js_rem_normalized. reflexivity.
Qed.

Lemma greenwichSiderealTime_range tz date :
  0 <= greenwichSiderealTime tz date < 360.
Proof. unfold greenwichSiderealTime. apply js_rem_normalized. reflexivity. Qed.

(** ** getMoonPhase *)

Lemma getMoonPhase_phase tz d :
  MoonPhaseData.phase (getMoonPhase tz d)
  = js_rem (getJulianDay tz d - 2451550.1) 29.53059 / 29.53059.
Proof. unfold getMoonPhase. cbv zeta. destruct (phaseNameEmoji _). reflexivity. Qed.

Lemma getMoonPhase_name tz d :
  MoonPhaseData.name (getMoonPhase tz d)
  = fst (phaseNameEmoji (MoonPhaseData.phase (getMoonPhase tz d))).
Proof.
  rewrite getMoonPhase_phase. unfold getMoonPhase. cbv zeta.
  destruct (phaseNameEmoji _). reflexivity.
Qed.

Lemma getMoonPhase_illumination_eq tz d :
  MoonPhaseData.illumination (getMoonPhase tz d)
  = (0.5 * (1 - cos (2 * PI * Q2R (MoonPhaseData.phase (getMoonPhase tz d)))))%R.
Proof.
  rewrite getMoonPhase_phase. unfold getMoonPhase. cbv zeta.
  destruct (phaseNameEmoji _). reflexivity.
Qed.

Lemma Qdiv_bounds a lo hi c :
  0 < c -> lo * c <= a -> a < hi * c -> lo <= a / c < hi.
Proof.
  intros Hc H1 H2. split.
  - apply Qle_shift_div_l; assumption.
  - apply Qlt_shift_div_r; assumption.
Qed.

(** From the reference new moon on, the phase is a fraction of the cycle. *)
Lemma getMoonPhase_phase_from_reference tz d :
  2451550.1 <= getJulianDay tz d ->
  0 <= MoonPhaseData.phase (getMoonPhase tz d) < 1.
Proof.
  intros H. rewrite getMoonPhase_phase.
  assert (Hr : 0 <= js_rem (getJulianDay tz d - 2451550.1) 29.53059 < 29.53059).
  { apply js_rem_nonneg; [lra | reflexivity]. }
  apply Qdiv_bounds; [reflexivity | lra | lra].
Qed.


(** C1, at the request date 2000-01-01 on a host in UTC: the Julian Day is
    2451544.5, five days and 0.6 before the reference new moon, and the phase
    returned is negative, so it is not in [[0, 1)]. *)
Theorem getMoonPhase_phase_negative_before_reference :
  let d := dateOfDay 10957 0 0 0 0 in
  getJulianDay utcHost d == 2451544.5
  /\ MoonPhaseData.phase (getMoonPhase utcHost d) == - (5.6 / 29.53059)
  /\ ~ (0 <= MoonPhaseData.phase (getMoonPhase utcHost d)).
Proof.
  cbv zeta. split; [|split].
  - vm_compute. reflexivity.
  - rewrite getMoonPhase_phase. vm_compute. reflexivity.
  - rewrite getMoonPhase_phase. vm_compute. intros H. apply H. reflexivity.
Qed.

(** C7: the illumination is the half-cosine of the phase of the same result,
    and lies in [[0, 1]]. *)
Theorem getMoonPhase_illumination (tz : Z -> Z) (d : Date) :
  let r := getMoonPhase tz d in
  MoonPhaseData.illumination r
  = (0.5 * (1 - cos (2 * PI * Q2R (MoonPhaseData.phase r))))%R
  /\ (0 <= MoonPhaseData.illumination r <= 1)%R.
Proof.
  cbv zeta. rewrite getMoonPhase_illumination_eq. split; [reflexivity|].
  pose proof (COS_bound (2 * PI * Q2R (MoonPhaseData.phase (getMoonPhase tz d)))) as [H1 H2].
  split; lra.
Qed.

Lemma phaseNameEmoji_interval p k :
  0 <= p -> p < 1 ->
  specInterval k p <-> fst (phaseNameEmoji p) = phaseLabel k.
Proof.
  intros H0 H1. unfold phaseNameEmoji.
  destruct (Qltb_spec p 0.025); cbn [orb].
  { destruct k; cbn; split; intros H; try discriminate H; try lra; auto. }
  destruct (Qgeb p 0.975) eqn:E;
    [apply Qgeb_ge in E | apply Qgeb_lt in E].
  { destruct k; cbn; split; intros H; try discriminate H; try lra; auto. }
  repeat match goal with
         | |- context [if Qltb ?a ?b then _ else _] =>
             destruct (Qltb_spec a b)
         end;
    destruct k; cbn; split; intros H; try discriminate H; try lra; auto.
Qed.

Lemma phaseNameEmoji_label p : exists k, fst (phaseNameEmoji p) = phaseLabel k.
Proof.
  unfold phaseNameEmoji.
  repeat match goal with
         | |- context [if ?b then _ else _] => destruct b
         end;
    [ exists NewMoon | exists WaxingCrescent | exists FirstQuarter
    | exists WaxingGibbous | exists FullMoon | exists WaningGibbous
    | exists LastQuarter | exists WaningCrescent ]; reflexivity.
Qed.

Lemma phaseLabel_inj k1 k2 : phaseLabel k1 = phaseLabel k2 -> k1 = k2.
Proof. destruct k1, k2; cbn; intros H; try reflexivity; discriminate H. Qed.

(** C6: over [[0, 1)] the eight intervals of the specification cover every
    phase fraction, no two of them share one, and [getMoonPhase] names a
    result by the interval that holds its phase. *)
Theorem getMoonPhase_phase_table (p : Q) :
  0 <= p < 1 ->
  (exists k, specInterval k p)
  /\ (forall k1 k2, specInterval k1 p -> specInterval k2 p -> k1 = k2)
  /\ (forall tz d k,
        MoonPhaseData.phase (getMoonPhase tz d) = p ->
        (specInterval k p
         <-> MoonPhaseData.name (getMoonPhase tz d) = phaseLabel k)).
Proof.
  intros [H0 H1]. split; [|split].
  - destruct (phaseNameEmoji_label p) as [k Hk].
    exists k. apply phaseNameEmoji_interval; assumption.
  - intros k1 k2 I1 I2. apply phaseLabel_inj.
    apply phaseNameEmoji_interval in I1; [|assumption..].
    apply phaseNameEmoji_interval in I2; [|assumption..].
    congruence.
  - intros tz d k E. rewrite getMoonPhase_name, E.
    apply phaseNameEmoji_interval; assumption.
Qed.


Lemma getMoonPhase_phase_table_witness :
  let d := dateOfDay 10977 12 0 0 0 in
  MoonPhaseData.name (getMoonPhase utcHost d) = phaseLabel FullMoon.
Proof.
  intros d.
  assert (E : MoonPhaseData.phase (getMoonPhase utcHost d) == 14.9 / 29.53059).
  { rewrite getMoonPhase_phase. vm_compute. reflexivity. }
  assert (B : 0 <= MoonPhaseData.phase (getMoonPhase utcHost d) < 1).
  { split.
    - apply (Qle_trans _ (14.9 / 29.53059)); [discriminate | apply Qle_lteq; right; symmetry; exact E].
    - apply (Qle_lt_trans _ (14.9 / 29.53059)); [apply Qle_lteq; right; exact E | reflexivity]. }
  pose proof (getMoonPhase_phase_table _ B) as (_ & _ & T).
  pose proof (proj1 (T utcHost d FullMoon eq_refl)) as T1.
  apply T1.
  unfold specInterval. split.
  - apply (Qle_trans _ (14.9 / 29.53059)); [discriminate | apply Qle_lteq; right; symmetry; exact E].
  - apply (Qle_lt_trans _ (14.9 / 29.53059)); [apply Qle_lteq; right; exact E | reflexivity].
Defined.

(** ** The response of the handler *)

Lemma responseData_illumination tz d lat lng colour :
  ResponseMoonPhase.illumination
    (StarMapResponse.moonPhase (responseData tz d lat lng colour))
  = MoonPhaseData.illumination (getMoonPhase tz d).
Proof. reflexivity. Qed.

Lemma Q2R_between_0_1 p : 0 < p -> p < 1 -> (0 < Q2R p < 1)%R.
Proof.
  intros H0 H1. apply Qlt_Rlt in H0. apply Qlt_Rlt in H1.
  replace (Q2R 0) with 0%R in H0 by (unfold Q2R; cbn; lra).
  replace (Q2R 1) with 1%R in H1 by (unfold Q2R; cbn; lra).
  split; assumption.
Qed.

(** Strictly inside the cycle some of the disc is lit. *)
Lemma half_cosine_pos (x : R) :
  (0 < x < 1)%R -> (0 < 0.5 * (1 - cos (2 * PI * x)))%R.
Proof.
  intros [H0 H1].
  replace (2 * PI * x)%R with (2 * (PI * x))%R by ring.
  rewrite cos_2a_sin.
  pose proof PI_RGT_0 as Hpi.
  assert (Hs : (0 < sin (PI * x))%R).
  { apply sin_gt_0; nra. }
  nra.
Qed.

(** C2, as stated, fails: for the request date 2000-01-21 the response carries
    the engine's illumination itself, a little under one, not a hundred
    times it. *)
Lemma responseData_illumination_not_percentage :
  let d := dateOfDay 10977 0 0 0 0 in
  let r := responseData utcHost d 38.75 (-77.48) "#FFFDE7" in
  ResponseMoonPhase.illumination (StarMapResponse.moonPhase r)
  <> (100 * MoonPhaseData.illumination (getMoonPhase utcHost d))%R.
Proof.
  intros d r. subst r. rewrite responseData_illumination.
  rewrite getMoonPhase_illumination_eq.
  assert (E : MoonPhaseData.phase (getMoonPhase utcHost d) == 14.4 / 29.53059).
  { rewrite getMoonPhase_phase. vm_compute. reflexivity. }
  assert (B : (0 < Q2R (MoonPhaseData.phase (getMoonPhase utcHost d)) < 1)%R).
  { apply Q2R_between_0_1.
    - apply (Qlt_le_trans _ (14.4 / 29.53059));
        [reflexivity | apply Qle_lteq; right; symmetry; exact E].
    - apply (Qle_lt_trans _ (14.4 / 29.53059));
        [apply Qle_lteq; right; exact E | reflexivity]. }
  pose proof (half_cosine_pos _ B) as Hpos.
  lra.
Qed.

(** C2 (amended): the response carries the engine's illumination unchanged,
    a fraction in [[0, 1]]. *)
Theorem responseData_illumination_fraction
  (tz : Z -> Z) (dateObj : Date) (lat lng : Q) (sanitizedMoonColor : string) :
  let r := responseData tz dateObj lat lng sanitizedMoonColor in
  ResponseMoonPhase.illumination (StarMapResponse.moonPhase r)
  = MoonPhaseData.illumination (getMoonPhase tz dateObj)
  /\ (0 <= ResponseMoonPhase.illumination (StarMapResponse.moonPhase r) <= 1)%R.
Proof.
  intros r. subst r. rewrite responseData_illumination.
  split; [reflexivity|].
  rewrite getMoonPhase_illumination_eq.
  pose proof (COS_bound
                (2 * PI * Q2R (MoonPhaseData.phase (getMoonPhase tz dateObj))))
    as [H1 H2].
  split; lra.
Qed.

(** ** generateMoonPhaseSVG *)

(** C9: at phase 0 the graphic is the disc alone, filled black; at phase 0.5
    it is the disc alone, filled white. *)
Theorem generateMoonPhaseSVG_new_and_full :
  generateMoonPhaseSVG 0
  = mkSvg 100 100 (0, 0, 100, 100)%Z [Circle 50 50 40 "black" "#444" 1]
  /\ generateMoonPhaseSVG 0.5
     = mkSvg 100 100 (0, 0, 100, 100)%Z [Circle 50 50 40 "white" "#444" 1].
Proof. split; vm_compute; reflexivity. Qed.

Local Open Scope Q_scope.

(** ** getVisiblePlanets *)

(** A turn of the loop keeps what was pushed and pushes visible planets
    only. *)
Lemma planetStep_prefix tz date jd result entry :
  exists added, planetStep tz date jd result entry = result ++ added
                /\ allVisible added.
Proof.
  unfold planetStep. destruct entry as [name period].
  destruct (planetCase name _) as [[description isVisible] magnitude].
  destruct (_ && _).
  - exists []. rewrite app_nil_r. split; constructor.
  - destruct isVisible eqn:E.
    + eexists. split; [reflexivity|]. repeat constructor.
    + exists []. rewrite app_nil_r. split; constructor.
Qed.

Lemma planetCase_Jupiter phase :
  snd (fst (planetCase "Jupiter" phase)) = true.
Proof.
  unfold planetCase. cbn [String.eqb Ascii.eqb Bool.eqb].
  repeat match goal with
         | |- context [if ?b then _ else _] => destruct b
         end; reflexivity.
Qed.

(** Jupiter's turn always pushes Jupiter. *)
Lemma planetStep_Jupiter tz date jd result period :
  exists p, planetStep tz date jd result ("Jupiter"%string, period) = result ++ [p]
            /\ PlanetData.name p = "Jupiter"%string
            /\ PlanetData.isVisible p = true.
Proof.
  unfold planetStep.
  pose proof (planetCase_Jupiter (js_rem (jd - 2451545.0) period / period)) as H.
  destruct (planetCase _ _) as [[description isVisible] magnitude].
  cbn in H. subst isVisible.
  replace (negb ("Jupiter" =? "Jupiter")%string) with false by reflexivity.
  rewrite andb_false_r.
  eexists. split; [reflexivity|]. split; reflexivity.
Qed.

Lemma allVisible_app ps qs : allVisible ps -> allVisible qs -> allVisible (ps ++ qs).
Proof. unfold allVisible. intros. apply Forall_app. split; assumption. Qed.

(** After the loop over [periods]: only visible planets, Jupiter among
    them. *)
Lemma forEach_periods tz date jd :
  let result := fold_left (planetStep tz date jd) periods [] in
  allVisible result
  /\ exists p, In p result /\ PlanetData.name p = "Jupiter"%string
               /\ PlanetData.isVisible p = true.
Proof.
  unfold periods. cbn [fold_left].
  destruct (planetStep_prefix tz date jd [] ("Mercury"%string, 88)) as (a1 & -> & V1).
  destruct (planetStep_prefix tz date jd ([] ++ a1) ("Venus"%string, 225))
    as (a2 & -> & V2).
  destruct (planetStep_prefix tz date jd (([] ++ a1) ++ a2) ("Mars"%string, 687))
    as (a3 & -> & V3).
  destruct (planetStep_Jupiter tz date jd ((([] ++ a1) ++ a2) ++ a3) 4333)
    as (j & -> & Nj & Vj).
  destruct (planetStep_prefix tz date jd (((([] ++ a1) ++ a2) ++ a3) ++ [j])
              ("Saturn"%string, 10759)) as (a5 & -> & V5).
  split.
  - repeat apply allVisible_app; try assumption; repeat constructor. exact Vj.
  - exists j. split; [|split; assumption].
    apply in_or_app. left. apply in_or_app. right. left. reflexivity.
Qed.

(** The loop over the backup list keeps what is there and adds backup
    planets only. *)
Lemma addBackup_prefix ps : forall result,
  allVisible ps ->
  exists added, addBackup ps result = result ++ added /\ allVisible added.
Proof.
  induction ps as [|planet rest IH]; intros result V; cbn [addBackup].
  - exists []. rewrite app_nil_r. split; constructor.
  - inversion V as [|? ? Vp Vrest]; subst.
    destruct (negb _).
    + destruct (2 <=? _)%nat.
      * exists [planet]. split; [reflexivity|]. repeat constructor. exact Vp.
      * destruct (IH (result ++ [planet]) Vrest) as (added & -> & Va).
        exists (planet :: added). rewrite <- app_assoc. split; [reflexivity|].
        constructor; assumption.
    + apply IH. exact Vrest.
Qed.

(** With Jupiter alone in the list, the backup loop adds Venus. *)
Lemma addBackup_fills result p :
  In p result -> PlanetData.name p = "Jupiter"%string ->
  (List.length result < 2)%nat ->
  (2 <= List.length (addBackup backup result))%nat.
Proof.
  intros Hin Hn Hlen.
  destruct result as [|q [|q' rest]]; cbn in Hlen; try lia.
  - destruct Hin.
  - destruct Hin as [->|[]].
    cbn. rewrite Hn. cbn. lia.
Qed.

Lemma backup_allVisible : allVisible backup.
Proof. repeat constructor. Qed.

(** What [getVisiblePlanets] returns: at least two planets, every one of them
    visible, Jupiter among them. *)
Lemma getVisiblePlanets_shape tz date latitude longitude :
  let result := getVisiblePlanets tz date latitude longitude in
  allVisible result
  /\ (2 <= List.length result)%nat
  /\ exists p, In p result /\ PlanetData.name p = "Jupiter"%string
               /\ PlanetData.isVisible p = true.
Proof.
  unfold getVisiblePlanets.
  destruct (forEach_periods tz date (getJulianDay tz date)) as (V & j & Hin & Nj & Vj).
  cbv zeta in *.
  set (result := fold_left _ periods []) in *.
  destruct (Nat.ltb_spec (List.length result) 2) as [Hlt|Hge].
  - destruct (addBackup_prefix backup result backup_allVisible) as (added & E & Va).
    split; [|split].
    + rewrite E. apply allVisible_app; assumption.
    + apply (addBackup_fills result j); assumption.
    + exists j. rewrite E. split; [apply in_or_app; left; exact Hin|].
      split; assumption.
  - split; [exact V|]. split; [exact Hge|].
    exists j. split; [exact Hin|]. split; assumption.
Qed.

Lemma filter_allVisible ps :
  allVisible ps -> filter PlanetData.isVisible ps = ps.
Proof.
  induction 1 as [|p ps Hp _ IH]; cbn; [reflexivity|].
  rewrite Hp, IH. reflexivity.
Qed.

(** C4: at least two of the planets returned are visible. *)
Theorem getVisiblePlanets_two_visible
  (tz : Z -> Z) (date : Date) (latitude longitude : Q) :
  (2 <= List.length (filter PlanetData.isVisible
                       (getVisiblePlanets tz date latitude longitude)))%nat.
Proof.
  destruct (getVisiblePlanets_shape tz date latitude longitude) as (V & L & _).
  rewrite filter_allVisible; assumption.
Qed.

(** C10: Jupiter is always among the planets returned, and visible. *)
Theorem getVisiblePlanets_Jupiter
  (tz : Z -> Z) (date : Date) (latitude longitude : Q) :
  exists p, In p (getVisiblePlanets tz date latitude longitude)
            /\ PlanetData.name p = "Jupiter"%string
            /\ PlanetData.isVisible p = true.
Proof.
  destruct (getVisiblePlanets_shape tz date latitude longitude) as (_ & _ & J).
  exact J.
Qed.

Local Open Scope nat_scope.

(** ** getVisibleConstellations *)

Lemma includes_app xs ys c :
  includes (xs ++ ys) c = includes xs c || includes ys c.
Proof. unfold includes. apply existsb_app. Qed.

Lemma includes_single s c : includes [Some s] c = String.eqb s c.
Proof. cbn. apply orb_false_r. Qed.

Lemma missingFrom_push result c cs :
  ~ In c cs -> missingFrom (result ++ [Some c]) cs = missingFrom result cs.
Proof.
  intros Hnot. unfold missingFrom. f_equal.
  apply filter_ext_in. intros x Hx.
  rewrite includes_app, includes_single.
  destruct (String.eqb_spec c x) as [->|_]; [contradiction|].
  rewrite orb_false_r. reflexivity.
Qed.

(** The loop pushes every missing name, unless it stops at five. *)
Lemma addCommon_length cs : forall result,
  NoDup cs ->
  Nat.min 5 (List.length result + missingFrom result cs)
  <= List.length (addCommon cs result).
Proof.
  induction cs as [|c rest IH]; intros result ND; cbn [addCommon].
  - unfold missingFrom. cbn [filter List.length]. lia.
  - inversion ND as [|? ? Hnot ND']; subst.
    unfold missingFrom at 1. cbn [filter].
    destruct (includes result c) eqn:E; cbn [negb].
    + apply IH. exact ND'.
    + cbn [List.length].
      destruct (Nat.leb_spec 5 (List.length (result ++ [Some c]))) as [H5|H5].
      * lia.
      * specialize (IH (result ++ [Some c]) ND').
        rewrite missingFrom_push in IH by exact Hnot.
        rewrite length_app in IH. cbn [List.length] in IH.
        fold (missingFrom result rest). lia.
Qed.

(** One more array element hides at most one name of a duplicate-free list. *)
Lemma missingFrom_cons x result cs :
  NoDup cs -> missingFrom result cs <= S (missingFrom (x :: result) cs).
Proof.
  unfold missingFrom. induction 1 as [|c cs Hnot ND IH]; cbn [filter]; [cbn; lia|].
  destruct x as [s|].
  - change (includes (Some s :: result) c) with (String.eqb s c || includes result c).
    destruct (String.eqb_spec s c) as [->|Hne]; cbn [orb negb].
    + (* every later name differs from [c] *)
      assert (E : filter (fun c0 => negb (includes (@cons JsString (Some c) result) c0)) cs
                  = filter (fun c0 => negb (includes result c0)) cs).
      { apply filter_ext_in. intros y Hy.
        change (includes (Some c :: result) y)
          with (String.eqb c y || includes result y).
        destruct (String.eqb_spec c y) as [->|_]; [contradiction|reflexivity]. }
      rewrite E. destruct (negb (includes result c)); cbn [List.length]; lia.
    + destruct (negb (includes result c)); cbn [List.length]; lia.
  - change (includes (None :: result) c) with (includes result c).
    destruct (negb (includes result c)); cbn [List.length]; lia.
Qed.

Lemma missingFrom_length result cs :
  NoDup cs -> List.length cs <= List.length result + missingFrom result cs.
Proof.
  intros ND. induction result as [|x result IH].
  - unfold missingFrom. cbn [includes existsb negb List.length].
    assert (E : forall l : list string, filter (fun _ => true) l = l).
    { induction l as [|a l IHl]; cbn; [reflexivity | rewrite IHl; reflexivity]. }
    rewrite E. lia.
  - pose proof (missingFrom_cons x result cs ND). cbn [List.length]. lia.
Qed.

Lemma common_NoDup : NoDup common.
Proof.
  unfold common.
  repeat (constructor;
          [cbn; intros H;
           repeat (destruct H as [H|H]; [discriminate H|]); exact H|]).
  constructor.
Qed.

(** Padding from [common] always reaches five entries. *)
Lemma addCommon_common_length result :
  5 <= List.length (addCommon common result) \/ 5 <= List.length result.
Proof.
  pose proof (addCommon_length common result common_NoDup) as H.
  pose proof (missingFrom_length result common common_NoDup) as H'.
  change (List.length common) with 5 in H'. lia.
Qed.

(** The array returned has four or five entries, [undefined] ones
    counted. *)
Lemma getVisibleConstellations_length
  (tz : Z -> Z) (date : Date) (latitude longitude : Q) :
  4 <= List.length (getVisibleConstellations tz date latitude longitude) <= 5.
Proof.
  unfold getVisibleConstellations. cbv zeta.
  set (visibleSeasonal := map sc_name (firstn 5 _)).
  assert (Hvs : List.length visibleSeasonal <= 5).
  { subst visibleSeasonal. rewrite length_map. apply firstn_le_length. }
  clearbody visibleSeasonal.
  set (c1 := arrayGet _ (Z.rem _ _)). set (c2 := arrayGet _ (Z.rem _ _)).
  clearbody c1 c2.
  rewrite length_firstn.
  destruct (Nat.ltb_spec (List.length visibleSeasonal) 4) as [H4|H4].
  - set (result := map Some visibleSeasonal ++ [c1] ++ [c2]).
    assert (Hr : List.length result = List.length visibleSeasonal + 2).
    { subst result. rewrite !length_app, length_map. cbn [List.length]. lia. }
    destruct (Nat.ltb_spec (List.length result) 4) as [Hp|Hp].
    + pose proof (addCommon_common_length result) as Hc.
      unfold JsString in *. lia.
    + unfold JsString in *. lia.
  - set (result := map Some visibleSeasonal ++ [c1] ++ []).
    assert (Hr : List.length result = List.length visibleSeasonal + 1).
    { subst result. rewrite !length_app, length_map. cbn [List.length]. lia. }
    destruct (Nat.ltb_spec (List.length result) 4) as [Hp|Hp];
      unfold JsString in *; lia.
Qed.

(** C5, for 31 December of year -2 on a host in UTC, seen from latitude
    40.7128 and longitude 100: the date number 31 + 1100 - 20000 is negative,
    both circumpolar picks read at a negative index, and the array returned
    holds three names and two [undefined] entries. *)
Theorem getVisibleConstellations_three_names_before_year_0 :
  let date := dateOfDay (-719894) 0 0 0 0 in
  (getFullYear utcHost date, getMonth utcHost date, getDate utcHost date)
  = (-2, 11, 31)%Z
  /\ Z.rem (constellationDateNum utcHost date) 5 = (-4)%Z
  /\ Z.rem (constellationDateNum utcHost date + 2) 5 = (-2)%Z
  /\ getVisibleConstellations utcHost date 40.7128 100
     = [Some "Canis Minor"%string; None; None; Some "Orion"%string;
        Some "Ursa Major"%string].
Proof. cbv zeta. repeat split; vm_compute; reflexivity. Qed.

(* ================================================================== *)
(** * Further properties of the engine *)

Local Open Scope Z_scope.

(** ** getJulianDay *)

(** On a host in UTC, [getJulianDay] is the count of whole seconds since the
    epoch, in days, plus the Julian Day of the epoch: the day-number formula
    undoes the calendar getters for every date, leap days and years before
    year 0 included. *)
Theorem getJulianDay_utc_closed_form (d : Date) :
  (getJulianDay utcHost d
   == inject_Z (timeValue d / msPerSecond) / 86400 + 2440587.5)%Q.
Proof. apply getJulianDay_utc. Qed.

(** On any host, [getJulianDay] differs from its value on a UTC host by a
    whole number of days: the local calendar day minus the UTC calendar day.
    The time of day is always the UTC one. *)
Theorem getJulianDay_host_offset (tz : Z -> Z) (d : Date) :
  (getJulianDay tz d
   == getJulianDay utcHost d
      + inject_Z (Day (timeValue d + tz (timeValue d)) - Day (timeValue d)))%Q.
Proof.
  unfold getJulianDay, getFullYear, getMonth, getDate, LocalTime, utcHost.
  rewrite Z.add_0_r, !julianDayNumber_civil.
  cbv zeta. unfold Z.sub. rewrite !inject_Z_plus, inject_Z_opp. ring.
Qed.

(** ** getMoonPhase *)

Local Open Scope Q_scope.

(** For a date at or after the reference new moon the phase is in
    [[0, 1)]. *)
Theorem getMoonPhase_phase_range_from_reference (tz : Z -> Z) (d : Date) :
  2451550.1 <= getJulianDay tz d ->
  0 <= MoonPhaseData.phase (getMoonPhase tz d) < 1.
Proof. apply getMoonPhase_phase_from_reference. Qed.

Lemma getMoonPhase_phase_range_from_reference_witness :
  let d := dateOfDay 10977 12 0 0 0 in
  0 <= MoonPhaseData.phase (getMoonPhase utcHost d) < 1.
Proof.
  intros d. apply getMoonPhase_phase_range_from_reference.
  vm_compute. discriminate.
Defined.




(** ** getVisiblePlanets *)

Local Open Scope Z_scope.

(** A turn of the loop pushes nothing, or one visible planet under the name
    of the turn. *)
Lemma planetStep_cases tz date jd result name period :
  planetStep tz date jd result (name, period) = result
  \/ exists p, planetStep tz date jd result (name, period) = result ++ [p]
               /\ PlanetData.name p = name
               /\ PlanetData.isVisible p = true.
Proof.
  unfold planetStep.
  destruct (planetCase name _) as [[description isVisible] magnitude].
  destruct (_ && _).
  - left. reflexivity.
  - destruct isVisible.
    + right. eexists. split; [reflexivity|]. split; reflexivity.
    + left. reflexivity.
Qed.

(** On a date whose number is a multiple of 11, every planet but Jupiter is
    dropped. *)
Lemma planetStep_rule11 tz date jd result name period :
  Z.rem (planetDateNum tz date) 11 = 0 ->
  String.eqb name "Jupiter" = false ->
  planetStep tz date jd result (name, period) = result.
Proof.
  intros H11 Hn. unfold planetStep. unfold planetDateNum in H11.
  destruct (planetCase name _) as [[description isVisible] magnitude].
  rewrite H11, Hn. reflexivity.
Qed.

Lemma planetCase_Venus phase :
  snd (fst (planetCase "Venus" phase)) = true.
Proof.
  unfold planetCase. cbn [String.eqb Ascii.eqb Bool.eqb].
  destruct (_ || _); reflexivity.
Qed.

(** On any other date Venus's turn pushes Venus. *)
Lemma planetStep_Venus tz date jd result period :
  Z.rem (planetDateNum tz date) 11 <> 0 ->
  exists p, planetStep tz date jd result ("Venus"%string, period) = result ++ [p]
            /\ PlanetData.name p = "Venus"%string
            /\ PlanetData.isVisible p = true.
Proof.
  intros H11. unfold planetStep. unfold planetDateNum in H11.
  pose proof (planetCase_Venus (js_rem (jd - 2451545.0) period / period)) as H.
  destruct (planetCase _ _) as [[description isVisible] magnitude].
  cbn in H. subst isVisible.
  apply Z.eqb_neq in H11. rewrite H11. cbn [andb].
  eexists. split; [reflexivity|]. split; reflexivity.
Qed.

(** On a date whose number [day + 31 * month] is a multiple of 11 the result
    is exactly two planets: Jupiter as computed, then the backup Venus with
    its fixed magnitude -4.0. *)
Theorem getVisiblePlanets_rule11
  (tz : Z -> Z) (date : Date) (latitude longitude : Q) :
  Z.rem (planetDateNum tz date) 11 = 0 ->
  exists j,
    PlanetData.name j = "Jupiter"%string
    /\ PlanetData.isVisible j = true
    /\ getVisiblePlanets tz date latitude longitude
       = [j; PlanetData.mk "Venus"
               "Evening star (western horizon after sunset)" (-4.0) true].
Proof.
  intros H11. unfold getVisiblePlanets. cbv zeta.
  unfold periods. cbn [fold_left].
  rewrite !(planetStep_rule11 tz date _ [] _ _ H11) by reflexivity.
  destruct (planetStep_Jupiter tz date (getJulianDay tz date) [] 4333)
    as (j & -> & Nj & Vj).
  rewrite (planetStep_rule11 tz date _ _ "Saturn" _ H11) by reflexivity.
  exists j. split; [exact Nj|]. split; [exact Vj|].
  cbn. rewrite Nj. reflexivity.
Qed.

Lemma getVisiblePlanets_rule11_witness :
  let date := dateOfDay 10967 0 0 0 0 in
  exists j,
    PlanetData.name j = "Jupiter"%string
    /\ PlanetData.isVisible j = true
    /\ getVisiblePlanets utcHost date 38.75 (-77.48)
       = [j; PlanetData.mk "Venus"
               "Evening star (western horizon after sunset)" (-4.0) true].
Proof.
  intros date. apply getVisiblePlanets_rule11. vm_compute. reflexivity.
Defined.

(** On every other date the backup pass adds nothing: the result is the
    array built by the loop, and it holds Venus and Jupiter as computed. *)
Theorem getVisiblePlanets_no_backup
  (tz : Z -> Z) (date : Date) (latitude longitude : Q) :
  Z.rem (planetDateNum tz date) 11 <> 0 ->
  getVisiblePlanets tz date latitude longitude = planetsAfterForEach tz date
  /\ exists v j before between after,
       planetsAfterForEach tz date
       = before ++ [v] ++ between ++ [j] ++ after
       /\ PlanetData.name v = "Venus"%string
       /\ PlanetData.name j = "Jupiter"%string.
Proof.
  intros H11. unfold getVisiblePlanets, planetsAfterForEach. cbv zeta.
  set (jd := getJulianDay tz date).
  unfold periods. cbn [fold_left].
  set (r1 := planetStep tz date jd [] ("Mercury"%string, 88%Q)).
  destruct (planetStep_Venus tz date jd r1 225%Q H11) as (v & -> & Nv & Vv).
  destruct (planetStep_prefix tz date jd (r1 ++ [v]) ("Mars"%string, 687%Q))
    as (a3 & -> & _).
  destruct (planetStep_Jupiter tz date jd ((r1 ++ [v]) ++ a3) 4333%Q)
    as (j & -> & Nj & Vj).
  destruct (planetStep_prefix tz date jd (((r1 ++ [v]) ++ a3) ++ [j])
              ("Saturn"%string, 10759%Q)) as (a5 & -> & _).
  assert (L : (2 <= List.length ((((r1 ++ [v]) ++ a3) ++ [j]) ++ a5))%nat).
  { rewrite !length_app. cbn [List.length]. lia. }
  destruct (Nat.ltb_spec (List.length ((((r1 ++ [v]) ++ a3) ++ [j]) ++ a5)) 2);
    [lia|].
  split; [reflexivity|].
  exists v, j, r1, a3, a5. rewrite <- !app_assoc. split; [reflexivity|].
  split; assumption.
Qed.

Lemma getVisiblePlanets_no_backup_witness :
  let date := dateOfDay 10957 0 0 0 0 in
  getVisiblePlanets utcHost date 38.75 (-77.48) = planetsAfterForEach utcHost date
  /\ exists v j before between after,
       planetsAfterForEach utcHost date
       = before ++ [v] ++ between ++ [j] ++ after
       /\ PlanetData.name v = "Venus"%string
       /\ PlanetData.name j = "Jupiter"%string.
Proof.
  intros date. apply getVisiblePlanets_no_backup. vm_compute. discriminate.
Defined.

(** The loop never pushes a name twice. *)
Lemma forEach_names_NoDup tz date jd (entries : list (string * Q)) :
  forall result,
    NoDup (map fst entries) ->
    NoDup (map PlanetData.name result) ->
    (forall n, In n (map PlanetData.name result) -> ~ In n (map fst entries)) ->
    NoDup (map PlanetData.name (fold_left (planetStep tz date jd) entries result))
    /\ (List.length (fold_left (planetStep tz date jd) entries result)
        <= List.length result + List.length entries)%nat.
Proof.
  induction entries as [|[n p] rest IH]; intros result ND NDr Hdis;
    cbn [fold_left].
  - split; [assumption | lia].
  - cbn [map fst] in ND, Hdis. inversion ND as [|? ? Hn ND']; subst.
    destruct (planetStep_cases tz date jd result n p) as [E | (q & E & Nq & _)];
      rewrite E.
    + destruct (IH result ND' NDr) as [I1 I2].
      { intros m Hm Hin. apply (Hdis m Hm). right. exact Hin. }
      split; [exact I1 | cbn [List.length]; lia].
    + destruct (IH (result ++ [q]) ND') as [I1 I2].
      { rewrite map_app. cbn [map]. rewrite Nq.
        apply NoDup_app; [exact NDr | repeat constructor; intros [] |].
        intros m Hm [Heq|[]]. subst m. apply (Hdis n Hm). left. reflexivity. }
      { intros m Hm Hin. rewrite map_app in Hm. apply in_app_or in Hm.
        destruct Hm as [Hm | [Heq|[]]].
        - apply (Hdis m Hm). right. exact Hin.
        - subst m. rewrite Nq in Hin. contradiction. }
      split; [exact I1|].
      rewrite length_app in I2. cbn [List.length] in *. lia.
Qed.

(** The backup pass never pushes a name that is there, and stops at two. *)
Lemma addBackup_names_NoDup ps : forall result,
  NoDup (map PlanetData.name result) ->
  NoDup (map PlanetData.name (addBackup ps result))
  /\ (List.length (addBackup ps result)
      <= Nat.max 2 (S (List.length result)))%nat.
Proof.
  induction ps as [|planet rest IH]; intros result ND; cbn [addBackup].
  - split; [assumption | lia].
  - destruct (existsb _ result) eqn:E; cbn [negb].
    + apply IH. exact ND.
    + assert (ND' : NoDup (map PlanetData.name (result ++ [planet]))).
      { rewrite map_app. cbn [map].
        apply NoDup_app; [exact ND | repeat constructor; intros [] |].
        intros m Hm [Heq|[]]. subst m.
        apply in_map_iff in Hm. destruct Hm as (q & Hq & Hin).
        assert (T : existsb (fun p => String.eqb (PlanetData.name p)
                                        (PlanetData.name planet)) result = true).
        { apply existsb_exists. exists q. split; [exact Hin|].
          rewrite Hq. apply String.eqb_refl. }
        congruence. }
      destruct (Nat.leb_spec 2 (List.length (result ++ [planet]))) as [H2|H2].
      * split; [exact ND'|]. rewrite length_app in *. cbn [List.length] in *. lia.
      * destruct (IH _ ND') as [I1 I2]. split; [exact I1|].
        rewrite length_app in *. cbn [List.length] in *. lia.
Qed.

(** No planet is returned that is not visible, none is returned twice, and
    there are at most five. *)
Theorem getVisiblePlanets_visible_distinct
  (tz : Z -> Z) (date : Date) (latitude longitude : Q) :
  let result := getVisiblePlanets tz date latitude longitude in
  Forall (fun p => PlanetData.isVisible p = true) result
  /\ NoDup (map PlanetData.name result)
  /\ (List.length result <= 5)%nat.
Proof.
  cbv zeta.
  destruct (getVisiblePlanets_shape tz date latitude longitude) as (V & _ & _).
  split; [exact V|].
  unfold getVisiblePlanets. cbv zeta.
  destruct (forEach_names_NoDup tz date (getJulianDay tz date) periods [])
    as [N L].
  { unfold periods. cbn [map fst].
    repeat (constructor;
            [cbn; intros H;
             repeat (destruct H as [H|H]; [discriminate H|]); exact H|]).
    constructor. }
  { constructor. }
  { intros n []. }
  change (List.length periods) with 5%nat in L. cbn [List.length] in L.
  set (result := fold_left _ periods []) in *.
  destruct (Nat.ltb_spec (List.length result) 2) as [H2|H2].
  - destruct (addBackup_names_NoDup backup result N) as [N' L'].
    split; [exact N' | lia].
  - split; [exact N | lia].
Qed.


(** ** The calendar getters *)

Local Open Scope Z_scope.

Lemma DaysInYear_cases y : DaysInYear y = 365 \/ DaysInYear y = 366.
Proof.
  unfold DaysInYear.
  repeat match goal with
         | |- context [if ?b then _ else _] => destruct b
         end; auto.
Qed.

Lemma DayWithinYear_range t :
  0 <= DayWithinYear t < 365 + InLeapYear t.
Proof.
  pose proof (YearFromTime_spec t) as Hy.
  rewrite DayFromYear_succ in Hy.
  unfold DayWithinYear, InLeapYear.
  destruct (DaysInYear_cases (YearFromTime t)) as [E|E]; rewrite E in *; cbn; lia.
Qed.

Lemma InLeapYear_cases t : InLeapYear t = 0 \/ InLeapYear t = 1.
Proof. unfold InLeapYear. destruct (_ =? _); auto. Qed.

Lemma MonthFromTime_range t : 0 <= MonthFromTime t <= 11.
Proof.
  unfold MonthFromTime.
  repeat match goal with
         | |- context [if ?b then _ else _] => destruct b
         end; lia.
Qed.

Lemma DateFromTime_range t : 1 <= DateFromTime t <= 31.
Proof.
  pose proof (DayWithinYear_range t) as Hd.
  unfold DateFromTime, MonthFromTime.
  destruct (InLeapYear_cases t) as [E|E]; rewrite E in *;
  repeat match goal with
         | |- context [if ?a <? ?b then _ else _] =>
             destruct (Z.ltb_spec a b)
         end; cbv beta iota zeta; lia.
Qed.

(** ** getLocalSiderealTime *)

Local Open Scope Q_scope.



(** ** getVisibleConstellations: season and hour distance *)

(** South of the equator the season is the opposite of the northern one on
    the same day. *)
Theorem seasonOf_south_opposite (month day : Z) :
  seasonOf false month day = oppositeSeason (seasonOf true month day).
Proof.
  unfold seasonOf. destruct (seasonBranch month day) as [|[|[|n]]]; reflexivity.
Qed.

(** For a right ascension and a sidereal time within the 24-hour dial, the
    hour distance is the distance around the dial: between 0 and 12, the
    direct difference or its complement to 24. *)
Theorem hourDiff_range (lstHours ra : Q) :
  0 <= lstHours < 24 -> 0 <= ra < 24 ->
  0 <= hourDiff lstHours ra <= 12
  /\ (hourDiff lstHours ra == Qabs (ra - lstHours)
      \/ hourDiff lstHours ra == 24 - Qabs (ra - lstHours)).
Proof.
  intros [L0 L1] [R0 R1]. unfold hourDiff. cbv zeta. unfold Qgtb.
  assert (A0 : 0 <= Qabs (ra - lstHours)) by apply Qabs_nonneg.
  assert (A1 : Qabs (ra - lstHours) < 24).
  { apply Qabs_case; intros; lra. }
  destruct (Qltb_spec 12 (Qabs (ra - lstHours))) as [H|H].
  - split; [split; lra | right; reflexivity].
  - split; [split; lra | left; reflexivity].
Qed.

Lemma hourDiff_range_witness :
  0 <= hourDiff 23 1 <= 12
  /\ (hourDiff 23 1 == Qabs (1 - 23) \/ hourDiff 23 1 == 24 - Qabs (1 - 23)).
Proof.
  apply hourDiff_range; split; vm_compute; discriminate || reflexivity.
Defined.


(** ** getVisibleConstellations: what the array holds *)

Local Open Scope Z_scope.

Lemma getVisibleConstellations_unfold tz date latitude longitude :
  getVisibleConstellations tz date latitude longitude
  = let vs := visibleSeasonal tz date latitude longitude in
    let circumpolar := circumpolarOf latitude in
    let dateNum := constellationDateNum tz date in
    let result :=
      map Some vs
      ++ [arrayGet circumpolar (Z.rem dateNum 5)]
      ++ (if (List.length vs <? 4)%nat
          then [arrayGet circumpolar (Z.rem (dateNum + 2) 5)] else []) in
    firstn 5 (if (List.length result <? 4)%nat
              then addCommon common result else result).
Proof.
  unfold getVisibleConstellations, visibleSeasonal, circumpolarOf,
    constellationDateNum, seasonAt.
  destruct (Qgeb latitude 0); reflexivity.
Qed.

Lemma includes_In xs c : includes xs c = true <-> In (Some c) xs.
Proof.
  unfold includes. rewrite existsb_exists. split.
  - intros ([s|] & Hin & H); [|discriminate H].
    apply String.eqb_eq in H. subst s. exact Hin.
  - intros H. exists (Some c). split; [exact H | apply String.eqb_refl].
Qed.

(** The padding loop keeps the array, pushes names of its list only, and
    never pushes a name that is there. *)
Lemma addCommon_spec cs : forall result,
  exists added,
    addCommon cs result = result ++ map Some added
    /\ incl added cs
    /\ (NoDup result -> NoDup (result ++ map Some added)).
Proof.
  induction cs as [|c rest IH]; intros result; cbn [addCommon].
  - exists []. cbn. rewrite app_nil_r. split; [reflexivity|].
    split; [intros x []|auto].
  - destruct (includes result c) eqn:E; cbn [negb].
    + destruct (IH result) as (added & -> & I & N).
      exists added. split; [reflexivity|]. split; [|exact N].
      intros x Hx. right. apply I. exact Hx.
    + assert (Hnot : ~ In (Some c) result).
      { intros H. apply includes_In in H. congruence. }
      assert (ND : NoDup result -> NoDup (result ++ [Some c])).
      { intros N. apply NoDup_app; [exact N | repeat constructor; intros [] |].
        intros a Ha [Heq|[]]. subst a. contradiction. }
      destruct (5 <=? _)%nat.
      * exists [c]. split; [reflexivity|]. split; [|exact ND].
        intros x [<-|[]]. left. reflexivity.
      * destruct (IH (result ++ [Some c])) as (added & -> & I & N).
        exists (c :: added). cbn [map]. rewrite <- app_assoc.
        split; [reflexivity|]. split.
        -- intros x [<-|Hx]; [left; reflexivity | right; apply I; exact Hx].
        -- intros N0. specialize (N (ND N0)).
           rewrite <- app_assoc in N. exact N.
Qed.

Lemma getVisibleConstellations_shape
  (tz : Z -> Z) (date : Date) (latitude longitude : Q) :
  exists rest,
    getVisibleConstellations tz date latitude longitude
    = firstn 5
        (map Some (visibleSeasonal tz date latitude longitude)
         ++ arrayGet (circumpolarOf latitude)
              (Z.rem (constellationDateNum tz date) 5)
            :: rest).
Proof.
  rewrite getVisibleConstellations_unfold. cbv zeta.
  set (vs := visibleSeasonal tz date latitude longitude).
  set (c1 := arrayGet _ (Z.rem (constellationDateNum tz date) 5)).
  set (more := if (List.length vs <? 4)%nat then _ else _).
  destruct (List.length (map Some vs ++ [c1] ++ more) <? 4)%nat.
  - destruct (addCommon_spec common (map Some vs ++ [c1] ++ more))
      as (added & -> & _ & _).
    exists (more ++ map Some added). rewrite <- !app_assoc. reflexivity.
  - exists more. reflexivity.
Qed.

(** When five seasonal constellations are within six hours of the sidereal
    time, the result is these five and nothing else: the circumpolar
    constellation is cut off. *)
Theorem getVisibleConstellations_five_seasonal
  (tz : Z -> Z) (date : Date) (latitude longitude : Q) :
  List.length (visibleSeasonal tz date latitude longitude) = 5%nat ->
  getVisibleConstellations tz date latitude longitude
  = map Some (visibleSeasonal tz date latitude longitude).
Proof.
  intros H5.
  rewrite getVisibleConstellations_unfold. cbv zeta.
  set (vs := visibleSeasonal tz date latitude longitude) in *.
  assert (Hl : List.length (map (@Some string) vs) = 5%nat)
    by (rewrite length_map; exact H5).
  rewrite H5. change (5 <? 4)%nat with false. cbv iota.
  rewrite length_app, Hl.
  cbn [List.length app Nat.add Nat.ltb Nat.leb].
  rewrite firstn_app, Hl. change (5 - 5)%nat with 0%nat.
  rewrite firstn_O, app_nil_r. apply firstn_all2. rewrite Hl. reflexivity.
Qed.

Lemma getVisibleConstellations_five_seasonal_witness :
  let date := dateOfDay 10957 0 0 0 0 in
  getVisibleConstellations utcHost date 40.7128 (-74.0060)
  = map Some (visibleSeasonal utcHost date 40.7128 (-74.0060)).
Proof.
  intros date. apply getVisibleConstellations_five_seasonal.
  vm_compute. reflexivity.
Defined.


(** ** getVisibleConstellations: names, without repetition *)

Local Open Scope Z_scope.

Lemma constellationDateNum_nonneg tz date :
  0 <= getFullYear tz date -> 0 <= constellationDateNum tz date.
Proof.
  intros Hy. unfold constellationDateNum, getDate, getMonth.
  pose proof (DateFromTime_range (LocalTime tz (timeValue date))).
  pose proof (MonthFromTime_range (LocalTime tz (timeValue date))).
  lia.
Qed.

(** For a non-negative number the two circumpolar picks are two different
    names of the list. *)
Lemma circumpolar_picks latitude dateNum :
  0 <= dateNum ->
  exists s1 s2,
    arrayGet (circumpolarOf latitude) (Z.rem dateNum 5) = Some s1
    /\ arrayGet (circumpolarOf latitude) (Z.rem (dateNum + 2) 5) = Some s2
    /\ s1 <> s2
    /\ In s1 (circumpolarOf latitude) /\ In s2 (circumpolarOf latitude).
Proof.
  intros H. rewrite !Z.rem_mod_nonneg by lia.
  assert (C : (dateNum mod 5 = 0 /\ (dateNum + 2) mod 5 = 2)
              \/ (dateNum mod 5 = 1 /\ (dateNum + 2) mod 5 = 3)
              \/ (dateNum mod 5 = 2 /\ (dateNum + 2) mod 5 = 4)
              \/ (dateNum mod 5 = 3 /\ (dateNum + 2) mod 5 = 0)
              \/ (dateNum mod 5 = 4 /\ (dateNum + 2) mod 5 = 1)) by zdm.
  unfold circumpolarOf.
  destruct (Qgeb latitude 0);
    destruct C as [[-> ->]|[[-> ->]|[[-> ->]|[[-> ->]|[-> ->]]]]];
    cbn; do 2 eexists;
    (split; [reflexivity|]; split; [reflexivity|]; split; [discriminate|]);
    split; tauto.
Qed.

Lemma NoDup_firstn {A} (n : nat) (l : list A) : NoDup l -> NoDup (firstn n l).
Proof.
  intros N. revert n. induction N as [|x l Hx N IH]; intros [|n]; cbn;
    try constructor.
  - intros Hin. apply Hx. revert Hin. clear.
    revert n. induction l as [|a l IHl]; intros [|n]; cbn; try tauto.
    intros [->|H]; [left; reflexivity | right; apply (IHl n H)].
  - apply IH.
Qed.

Lemma In_firstn {A} (n : nat) (l : list A) x : In x (firstn n l) -> In x l.
Proof.
  revert n. induction l as [|a l IH]; intros [|n]; cbn; try tauto.
  intros [->|H]; [left; reflexivity | right; apply (IH n H)].
Qed.

Lemma NoDup_map_filter {K V : Type} (key : V -> K) (keep : V -> bool) :
  forall entries : list V,
    NoDup (map key entries) -> NoDup (map key (filter keep entries)).
Proof.
  intros entries. induction entries as [|a l IH]; cbn; [auto|].
  intros N. inversion N as [|? ? Hn N']; subst.
  destruct (keep a); cbn; [|apply IH; exact N'].
  constructor; [|apply IH; exact N'].
  intros Hin. apply Hn. apply in_map_iff in Hin.
  destruct Hin as (x & Hx & Hf). apply filter_In in Hf.
  apply in_map_iff. exists x. tauto.
Qed.

(** The sort rearranges, it neither drops nor repeats an entry. *)
Lemma insertByDiff_Permutation lstHours c cs :
  Permutation (insertByDiff lstHours c cs) (c :: cs).
Proof.
  induction cs as [|c' rest IH]; cbn; [reflexivity|].
  destruct (Qltb _ _); [|reflexivity].
  rewrite IH. apply perm_swap.
Qed.

Lemma sortByDiff_Permutation lstHours cs :
  Permutation (sortByDiff lstHours cs) cs.
Proof.
  unfold sortByDiff. induction cs as [|c rest IH]; cbn; [reflexivity|].
  rewrite insertByDiff_Permutation. constructor. exact IH.
Qed.

Lemma season_names_NoDup s : NoDup (map sc_name (constellationsBySeason s)).
Proof.
  destruct s; cbn;
    repeat (constructor;
            [cbn; intros H;
             repeat (destruct H as [H|H]; [discriminate H|]); exact H|]);
    constructor.
Qed.

(** The seasonal names are names of the season's list, each at most once. *)
Lemma visibleSeasonal_names tz date latitude longitude :
  NoDup (visibleSeasonal tz date latitude longitude)
  /\ incl (visibleSeasonal tz date latitude longitude)
          (map sc_name (constellationsBySeason (seasonAt tz date latitude))).
Proof.
  unfold visibleSeasonal. cbv zeta.
  set (lstHours := (getLocalSiderealTime tz date longitude / 15)%Q).
  set (L := constellationsBySeason _).
  set (F := filter _ L).
  assert (P : Permutation (map sc_name (sortByDiff lstHours F)) (map sc_name F)).
  { apply Permutation_map, sortByDiff_Permutation. }
  split.
  - rewrite <- firstn_map. apply NoDup_firstn.
    apply (Permutation_NoDup (Permutation_sym P)).
    apply NoDup_map_filter. apply season_names_NoDup.
  - intros x Hx. rewrite <- firstn_map in Hx. apply In_firstn in Hx.
    apply (Permutation_in _ P) in Hx.
    apply in_map_iff in Hx. destruct Hx as (c & Hc & Hin).
    apply filter_In in Hin. apply in_map_iff. exists c. tauto.
Qed.

(** No circumpolar constellation is in a seasonal list. *)
Lemma circumpolar_not_seasonal latitude s x :
  In x (circumpolarOf latitude) ->
  ~ In x (map sc_name (constellationsBySeason s)).
Proof.
  unfold circumpolarOf.
  destruct (Qgeb latitude 0); cbn; intros H;
    repeat (destruct H as [H|H]; [subst x|]); try contradiction;
    destruct s; cbn; intros H;
    repeat (destruct H as [H|H]; [discriminate H|]); exact H.
Qed.

Lemma NoDup_map_Some {A} (l : list A) : NoDup l -> NoDup (map (@Some A) l).
Proof.
  induction 1 as [|x l Hx N IH]; cbn; constructor; [|exact IH].
  intros Hin. apply in_map_iff in Hin. destruct Hin as (y & Hy & Hin).
  injection Hy as ->. contradiction.
Qed.

(** Before the cut at five, for a date whose local year is not negative: every
    entry is a name, from the season's list, the hemisphere's circumpolar
    list or the common list, and no name comes twice. *)
Lemma getVisibleConstellations_uncut tz date latitude longitude :
  0 <= getFullYear tz date ->
  exists full,
    getVisibleConstellations tz date latitude longitude = firstn 5 full
    /\ NoDup full
    /\ forall e, In e full ->
         exists s, e = Some s
           /\ (In s (map sc_name
                       (constellationsBySeason (seasonAt tz date latitude)))
               \/ In s (circumpolarOf latitude) \/ In s common).
Proof.
  intros Hy. rewrite getVisibleConstellations_unfold. cbv zeta.
  destruct (visibleSeasonal_names tz date latitude longitude) as [Nvs Ivs].
  set (vs := visibleSeasonal tz date latitude longitude) in *.
  destruct (circumpolar_picks latitude (constellationDateNum tz date)
              (constellationDateNum_nonneg tz date Hy))
    as (s1 & s2 & -> & -> & Hne & H1 & H2).
  unfold JsString in *.
  match goal with
  | |- context [map Some vs ++ [Some s1] ++ ?m] => set (more := m)
  end.
  set (result := map Some vs ++ [Some s1] ++ more).
  assert (Nr : NoDup result).
  { subst result. apply NoDup_app; [apply NoDup_map_Some; exact Nvs | |].
    - subst more. destruct (_ <? _)%nat.
      + constructor; [|repeat constructor; intros []].
        intros [E|[]]. injection E as E. congruence.
      + repeat constructor. intros [].
    - intros a Ha Hb. apply in_map_iff in Ha. destruct Ha as (x & <- & Hx).
      apply Ivs in Hx.
      assert (Hc : In x (circumpolarOf latitude)).
      { destruct Hb as [E|Hb]; [injection E as <-; exact H1|].
        subst more. destruct (_ <? _)%nat; [|destruct Hb].
        destruct Hb as [E|[]]. injection E as <-. exact H2. }
      exact (circumpolar_not_seasonal latitude _ x Hc Hx). }
  assert (Ir : forall e, In e result ->
             exists s, e = Some s
               /\ (In s (map sc_name
                           (constellationsBySeason (seasonAt tz date latitude)))
                   \/ In s (circumpolarOf latitude) \/ In s common)).
  { intros e He. subst result. apply in_app_or in He. destruct He as [He|He].
    - apply in_map_iff in He. destruct He as (x & <- & Hx).
      exists x. split; [reflexivity | left; apply Ivs; exact Hx].
    - destruct He as [<-|He]; [exists s1; tauto|].
      subst more. destruct (_ <? _)%nat; [|destruct He].
      destruct He as [<-|[]]. exists s2. tauto. }
  destruct (List.length result <? 4)%nat.
  - destruct (addCommon_spec common result) as (added & -> & Ia & Na).
    exists (result ++ map Some added). split; [reflexivity|].
    split; [exact (Na Nr)|].
    intros e He. apply in_app_or in He. destruct He as [He|He].
    + apply Ir. exact He.
    + apply in_map_iff in He. destruct He as (x & <- & Hx).
      exists x. split; [reflexivity|]. right. right. apply Ia. exact Hx.
  - exists result. split; [reflexivity|]. split; assumption.
Qed.

(** For a date whose local year is not negative, every entry returned is a
    constellation name: one of the season's list, of the hemisphere's
    circumpolar list or of the common list. *)
Theorem getVisibleConstellations_names
  (tz : Z -> Z) (date : Date) (latitude longitude : Q) :
  0 <= getFullYear tz date ->
  forall e, In e (getVisibleConstellations tz date latitude longitude) ->
    exists s, e = Some s
      /\ (In s (map sc_name
                  (constellationsBySeason (seasonAt tz date latitude)))
          \/ In s (circumpolarOf latitude) \/ In s common).
Proof.
  intros Hy e He.
  destruct (getVisibleConstellations_uncut tz date latitude longitude Hy)
    as (full & E & _ & I).
  rewrite E in He. apply I. apply (In_firstn 5). exact He.
Qed.

Lemma getVisibleConstellations_names_witness :
  let date := dateOfDay 10957 0 0 0 0 in
  exists s, Some "Perseus"%string = Some s
    /\ (In s (map sc_name
                (constellationsBySeason (seasonAt utcHost date 40.7128)))
        \/ In s (circumpolarOf 40.7128) \/ In s common).
Proof.
  intros date.
  apply (getVisibleConstellations_names utcHost date 40.7128 (-74.0060)).
  - vm_compute. discriminate.
  - vm_compute. left. reflexivity.
Defined.

(** For a date whose local year is not negative, no constellation is
    returned twice. *)
Theorem getVisibleConstellations_NoDup
  (tz : Z -> Z) (date : Date) (latitude longitude : Q) :
  0 <= getFullYear tz date ->
  NoDup (getVisibleConstellations tz date latitude longitude).
Proof.
  intros Hy.
  destruct (getVisibleConstellations_uncut tz date latitude longitude Hy)
    as (full & E & N & _).
  rewrite E. apply NoDup_firstn. exact N.
Qed.

Lemma getVisibleConstellations_NoDup_witness :
  NoDup (getVisibleConstellations utcHost (dateOfDay 10957 0 0 0 0)
           40.7128 (-74.0060)).
Proof. apply getVisibleConstellations_NoDup. vm_compute. discriminate. Defined.

(** ** getVisibleConstellations: the seasonal constellations, nearest first *)

Local Open Scope Q_scope.







(** ** getVisibleConstellations: years before year 0 *)

Local Open Scope Z_scope.

(** When the date number is negative and not a multiple of 5, the remainder
    is a negative index, the circumpolar pick reads outside the list and
    the entry after the seasonal names is [undefined]. *)
Theorem getVisibleConstellations_undefined_pick
  (tz : Z -> Z) (date : Date) (latitude longitude : Q) :
  constellationDateNum tz date < 0 ->
  Z.rem (constellationDateNum tz date) 5 <> 0 ->
  (List.length (visibleSeasonal tz date latitude longitude) < 5)%nat ->
  nth_error (getVisibleConstellations tz date latitude longitude)
    (List.length (visibleSeasonal tz date latitude longitude))
  = Some None.
Proof.
  intros Hneg Hrem Hlen.
  destruct (getVisibleConstellations_shape tz date latitude longitude)
    as (rest & ->).
  set (vs := visibleSeasonal tz date latitude longitude) in *.
  assert (Hi : Z.rem (constellationDateNum tz date) 5 < 0).
  { pose proof (Z.rem_nonpos (constellationDateNum tz date) 5). lia. }
  unfold arrayGet. apply Z.ltb_lt in Hi. rewrite Hi.
  rewrite nth_error_firstn.
  destruct (Nat.ltb_spec (List.length vs) 5) as [_|]; [|lia].
  rewrite nth_error_app2 by (rewrite length_map; lia).
  rewrite length_map, Nat.sub_diag. reflexivity.
Qed.

Lemma getVisibleConstellations_undefined_pick_witness :
  let date := dateOfDay (-719894) 0 0 0 0 in
  nth_error (getVisibleConstellations utcHost date 40.7128 100)
    (List.length (visibleSeasonal utcHost date 40.7128 100))
  = Some None.
Proof.
  intros date. apply getVisibleConstellations_undefined_pick.
  - vm_compute. reflexivity.
  - vm_compute. discriminate.
  - vm_compute. lia.
Defined.


(** ** generateMoonPhaseSVG *)

Local Open Scope Q_scope.

#[local] Instance Qltb_Proper : Proper (Qeq ==> Qeq ==> eq) Qltb.
Proof.
  intros x x' Hx y y' Hy.
  destruct (Qltb_spec x y) as [H|H], (Qltb_spec x' y') as [H'|H'];
    try reflexivity; exfalso; apply H' || apply H; rewrite Hx, Hy in *;
    assumption.
Qed.

#[local] Instance Q2R_Proper : Proper (Qeq ==> eq) Q2R.
Proof. intros x y H. apply Qeq_eqR. exact H. Qed.

(** The phase after normalization. *)
Lemma phase_normalized_range p :
  0 <= js_rem (js_rem p 1 + 1) 1 < 1.
Proof. apply js_rem_normalized. reflexivity. Qed.

Lemma phase_normalized_id p :
  0 <= p < 1 -> js_rem (js_rem p 1 + 1) 1 == p.
Proof.
  intros [H0 H1]. rewrite js_rem_normalized_flooredMod by reflexivity.
  unfold flooredMod.
  assert (E : Qfloor (p / 1) = 0%Z).
  { apply Qfloor_unique. change (inject_Z 0) with 0.
    assert (D : p / 1 == p) by field. rewrite D. split; lra. }
  rewrite E. change (inject_Z 0) with 0. ring.
Qed.


Lemma Qltb_abs x c y :
  Qltb (Qabs (x - c)) y = Qltb (c - y) x && Qltb x (c + y).
Proof.
  destruct (Qltb_spec (Qabs (x - c)) y) as [H|H].
  - apply Qabs_Qlt_condition in H. destruct H as [H1 H2].
    symmetry. apply andb_true_iff. split; apply Qltb_lt; lra.
  - symmetry. apply andb_false_iff.
    destruct (Qltb_spec (c - y) x) as [H1|H1]; [|left; reflexivity].
    destruct (Qltb_spec x (c + y)) as [H2|H2]; [|right; reflexivity].
    exfalso. apply H. apply Qabs_Qlt_condition. split; lra.
Qed.

Lemma Qltb_abs0 x y : Qltb (Qabs x) y = Qltb (- y) x && Qltb x y.
Proof.
  destruct (Qltb_spec (Qabs x) y) as [H|H].
  - apply Qabs_Qlt_condition in H. destruct H as [H1 H2].
    symmetry. apply andb_true_iff. split; apply Qltb_lt; lra.
  - symmetry. apply andb_false_iff.
    destruct (Qltb_spec (- y) x) as [H1|H1]; [|left; reflexivity].
    destruct (Qltb_spec x y) as [H2|H2]; [|right; reflexivity].
    exfalso. apply H. apply Qabs_Qlt_condition. split; lra.
Qed.

(** Unfolds the graphic at a phase in [[0, 1)] and decides every test of the
    function by linear arithmetic. *)
Ltac moon_cases p H :=
  unfold generateMoonPhaseSVG; cbv zeta;
  let n := fresh "n" in
  let E := fresh "E" in
  pose proof (phase_normalized_id p H) as E;
  set (n := js_rem (js_rem p 1 + 1) 1) in *; clearbody n;
  rewrite ?Qltb_abs, ?Qltb_abs0;
  repeat (match goal with
          | |- context [Qltb ?a ?b] =>
              destruct (Qltb_spec a b); cbn [andb orb]; cbv iota;
              try (exfalso; lra)
          end).


(** Closes the description of the graphic once the two colours are chosen. *)
Ltac layers_finish :=
  eexists;
  (split; [reflexivity|]);
  (split; [first [left; split; reflexivity | right; split; reflexivity]|]);
  (split; [first [left; reflexivity | right; eexists; reflexivity]|]);
  (split; [intros [? ?] | intros [?|?]]);
  first [reflexivity | exfalso; lra].

(** The graphic is the disc with at most one path over it, each black or
    white, and the path, when there is one, has the other colour.  The disc
    is white for phases from 0.26 to 0.74 and black below 0.26 and above
    0.74, the phase being taken at least the rounding margin away from 0.26
    and 0.74. *)
Theorem generateMoonPhaseSVG_layers (phase : Q) :
  0 <= phase < 1 ->
  exists disc over rest,
    generateMoonPhaseSVG phase
    = mkSvg 100 100 (0, 0, 100, 100)%Z (moonDisc disc :: rest)
    /\ ((disc = "white" /\ over = "black")
        \/ (disc = "black" /\ over = "white"))%string
    /\ (rest = [] \/ exists d, rest = [Path d over])
    /\ (0.26 + roundingMargin <= phase <= 0.74 - roundingMargin ->
        disc = "white"%string)
    /\ (phase <= 0.26 - roundingMargin \/ 0.74 + roundingMargin <= phase ->
        disc = "black"%string).
Proof.
  intros H. unfold roundingMargin.
  moon_cases phase H;
    first [ solve [ exists "black"%string, "white"%string; layers_finish ]
          | solve [ exists "white"%string, "black"%string; layers_finish ] ].
Qed.

Lemma generateMoonPhaseSVG_layers_witness :
  exists disc over rest,
    generateMoonPhaseSVG 0.3
    = mkSvg 100 100 (0, 0, 100, 100)%Z (moonDisc disc :: rest)
    /\ ((disc = "white" /\ over = "black")
        \/ (disc = "black" /\ over = "white"))%string
    /\ (rest = [] \/ exists d, rest = [Path d over])
    /\ (0.26 + roundingMargin <= 0.3 <= 0.74 - roundingMargin ->
        disc = "white"%string)
    /\ (0.3 <= 0.26 - roundingMargin \/ 0.74 + roundingMargin <= 0.3 ->
        disc = "black"%string).
Proof.
  apply generateMoonPhaseSVG_layers. split; vm_compute; discriminate || reflexivity.
Defined.

(** The graphic is the bare disc within 0.01 of new moon (phase 0 or 1) or of
    full moon (phase 0.5), and only there; black in the first case, white in
    the second.  The rounding margin separates the two directions: inside the
    window by the margin the disc is bare, and a bare disc is inside the
    window widened by the margin. *)
Theorem generateMoonPhaseSVG_bare_disc (phase : Q) :
  0 <= phase < 1 ->
  (phase <= 0.01 - roundingMargin \/ 0.99 + roundingMargin <= phase ->
   children (generateMoonPhaseSVG phase) = [moonDisc "black"])
  /\ (children (generateMoonPhaseSVG phase) = [moonDisc "black"] ->
      phase < 0.01 + roundingMargin \/ 0.99 - roundingMargin < phase)
  /\ (0.49 + roundingMargin <= phase <= 0.51 - roundingMargin ->
      children (generateMoonPhaseSVG phase) = [moonDisc "white"])
  /\ (children (generateMoonPhaseSVG phase) = [moonDisc "white"] ->
      0.49 - roundingMargin < phase < 0.51 + roundingMargin).
Proof.
  intros H. unfold roundingMargin.
  moon_cases phase H; cbn [children]; unfold moonDisc;
    (split; [|split; [|split]]); intros G;
    try discriminate G; try reflexivity; try (exfalso; lra); try lra.
Qed.

Lemma generateMoonPhaseSVG_bare_disc_witness :
  (0.995 <= 0.01 - roundingMargin \/ 0.99 + roundingMargin <= 0.995 ->
   children (generateMoonPhaseSVG 0.995) = [moonDisc "black"])
  /\ (children (generateMoonPhaseSVG 0.995) = [moonDisc "black"] ->
      0.995 < 0.01 + roundingMargin \/ 0.99 - roundingMargin < 0.995)
  /\ (0.49 + roundingMargin <= 0.995 <= 0.51 - roundingMargin ->
      children (generateMoonPhaseSVG 0.995) = [moonDisc "white"])
  /\ (children (generateMoonPhaseSVG 0.995) = [moonDisc "white"] ->
      0.49 - roundingMargin < 0.995 < 0.51 + roundingMargin).
Proof.
  apply generateMoonPhaseSVG_bare_disc.
  split; vm_compute; discriminate || reflexivity.
Defined.

(** Within 0.01 of the quarters, less the rounding margin, the lit part is an
    exact half disc: the right half at first quarter, the left half at last
    quarter, drawn as a semicircle from the top of the disc to its bottom and
    back along the diameter. *)
Theorem generateMoonPhaseSVG_quarters (phase : Q) :
  (0.24 + roundingMargin <= phase <= 0.26 - roundingMargin ->
   children (generateMoonPhaseSVG phase)
   = [moonDisc "black";
      Path [MoveTo 50 10; Arc 40 40 0 false true 50 90;
            LineTo 50 10; ClosePath] "white"])
  /\ (0.74 + roundingMargin <= phase <= 0.76 - roundingMargin ->
      children (generateMoonPhaseSVG phase)
      = [moonDisc "black";
         Path [MoveTo 50 10; Arc 40 40 0 false false 50 90;
               LineTo 50 10; ClosePath] "white"]).
Proof.
  unfold roundingMargin. split; intros [H1 H2];
    (assert (H : 0 <= phase < 1) by (split; lra));
    moon_cases phase H; try (exfalso; lra); reflexivity.
Qed.

Lemma generateMoonPhaseSVG_quarters_witness :
  children (generateMoonPhaseSVG 0.25)
  = [moonDisc "black";
     Path [MoveTo 50 10; Arc 40 40 0 false true 50 90;
           LineTo 50 10; ClosePath] "white"]
  /\ children (generateMoonPhaseSVG 0.75)
     = [moonDisc "black";
        Path [MoveTo 50 10; Arc 40 40 0 false false 50 90;
              LineTo 50 10; ClosePath] "white"].
Proof.
  split.
  - apply (proj1 (generateMoonPhaseSVG_quarters 0.25)).
    split; vm_compute; discriminate.
  - apply (proj2 (generateMoonPhaseSVG_quarters 0.75)).
    split; vm_compute; discriminate.
Defined.


(** ** The response of the handler: the graphic *)

Local Open Scope Q_scope.

(** Every fill of the moon graphic is black or white. *)
Lemma generateMoonPhaseSVG_fills phase :
  Forall (fun e => fillOf e = "black"%string \/ fillOf e = "white"%string)
    (children (generateMoonPhaseSVG phase)).
Proof.
  unfold generateMoonPhaseSVG. cbv zeta.
  set (n := js_rem (js_rem phase 1 + 1) 1). clearbody n.
  repeat match goal with
         | |- context [if ?b then _ else _] => destruct b; cbv iota
         end;
    cbn [children];
    repeat (apply Forall_cons || apply Forall_nil); cbn [fillOf]; auto.
Qed.

Lemma replaceFill_fills colour svg :
  hasDollar colour = false ->
  colour <> "white"%string ->
  Forall (fun e => fillOf e = "black"%string \/ fillOf e = "white"%string)
    (children svg) ->
  exists recolored,
    replaceFill colour svg = Some recolored
    /\ Forall (fun e => fillOf e = "black"%string \/ fillOf e = colour)
         (children recolored)
    /\ List.length (children recolored) = List.length (children svg).
Proof.
  intros Hd Hc F. unfold replaceFill. rewrite Hd.
  eexists. split; [reflexivity|]. cbn [children]. rewrite length_map.
  split; [|reflexivity].
  induction F as [|e es He _ IH]; cbn [map]; constructor; [|exact IH].
  destruct e as [cx cy r fill stroke w | d fill]; cbn [fillOf] in *;
    destruct He as [->| ->]; cbn; auto.
Qed.

(** With a moon colour that is not empty, not white under either of its
    names, and without a dollar sign (which [replace] would read as the start
    of a replacement pattern), the graphic in the response has the elements
    of the engine's graphic, and each is filled black or with the colour: no
    white is left. *)
Theorem responseData_svgPath_recolored
  (tz : Z -> Z) (dateObj : Date) (lat lng : Q) (sanitizedMoonColor : string) :
  sanitizedMoonColor <> EmptyString ->
  toLowerCase sanitizedMoonColor <> "#ffffff"%string ->
  sanitizedMoonColor <> "white"%string ->
  hasDollar sanitizedMoonColor = false ->
  let r := responseData tz dateObj lat lng sanitizedMoonColor in
  exists svg,
    ResponseMoonPhase.svgPath (StarMapResponse.moonPhase r) = Some svg
    /\ Forall (fun e => fillOf e = "black"%string
                        \/ fillOf e = sanitizedMoonColor)
         (children svg)
    /\ List.length (children svg)
       = List.length
           (children (generateMoonPhaseSVG
                        (MoonPhaseData.phase (getMoonPhase tz dateObj)))).
Proof.
  intros H1 H2 H3 H4. cbv zeta. unfold responseData. cbv zeta.
  cbn [StarMapResponse.moonPhase ResponseMoonPhase.svgPath].
  apply String.eqb_neq in H1, H2. rewrite H1, H2. cbn [negb andb].
  apply replaceFill_fills;
    [exact H4 | exact H3 | apply generateMoonPhaseSVG_fills].
Qed.

Lemma responseData_svgPath_recolored_witness :
  let r := responseData utcHost (dateOfDay 10977 0 0 0 0) 38.75 (-77.48)
             "#FFFDE7" in
  exists svg,
    ResponseMoonPhase.svgPath (StarMapResponse.moonPhase r) = Some svg
    /\ Forall (fun e => fillOf e = "black"%string
                        \/ fillOf e = "#FFFDE7"%string)
         (children svg)
    /\ List.length (children svg)
       = List.length
           (children (generateMoonPhaseSVG
                        (MoonPhaseData.phase
                           (getMoonPhase utcHost (dateOfDay 10977 0 0 0 0))))).
Proof.
  apply responseData_svgPath_recolored;
    vm_compute; discriminate || reflexivity.
Defined.


(** ** generateStarMapSVG *)

Local Open Scope Z_scope.

Lemma starFieldDateNum_nonneg tz date :
  0 <= getFullYear tz date -> 0 <= StarMap.starFieldDateNum tz date.
Proof.
  intros Hy. unfold StarMap.starFieldDateNum, getDate, getMonth.
  pose proof (DateFromTime_range (LocalTime tz (timeValue date))).
  pose proof (MonthFromTime_range (LocalTime tz (timeValue date))).
  lia.
Qed.

(** For a date whose local year is not negative, [getStarField] gives as many
    stars as asked for, every one of them on the 500 by 300 canvas. *)
Theorem getStarField_in_canvas (tz : Z -> Z) (date : Date) (count : nat) :
  0 <= getFullYear tz date ->
  List.length (StarMap.getStarField tz date count) = count
  /\ forall x y, In (x, y) (StarMap.getStarField tz date count) ->
       0 <= x < 500 /\ 0 <= y < 300.
Proof.
  intros Hy. unfold StarMap.getStarField. cbv zeta.
  split; [rewrite length_map, length_seq; reflexivity|].
  intros x y Hin. apply in_map_iff in Hin. destruct Hin as (i & E & _).
  injection E as <- <-.
  pose proof (starFieldDateNum_nonneg tz date Hy) as Hd.
  set (seed := Z.rem (StarMap.starFieldDateNum tz date * (Z.of_nat i + 1)) 997).
  assert (Hs : 0 <= seed < 997).
  { subst seed. apply Z.rem_bound_pos; nia. }
  unfold StarMap.width, StarMap.height.
  split; apply Z.rem_bound_pos; lia.
Qed.

Lemma getStarField_in_canvas_witness :
  let date := dateOfDay 10957 0 0 0 0 in
  List.length (StarMap.getStarField utcHost date 200) = 200%nat
  /\ forall x y, In (x, y) (StarMap.getStarField utcHost date 200) ->
       0 <= x < 500 /\ 0 <= y < 300.
Proof.
  intros date. apply getStarField_in_canvas. vm_compute. discriminate.
Defined.

(** A background star on the canvas has radius 0.5, 1 or 1.5, and its
    opacity grows with the radius: 0.475, 0.65 or 0.825. *)
Theorem backgroundStar_sizes (x y : Z) :
  0 <= x -> 0 <= y ->
  exists r opacity,
    StarMap.backgroundStar (x, y) = StarMap.BackgroundStar x y r opacity
    /\ ((r == 0.5 /\ opacity == 0.475)
        \/ (r == 1 /\ opacity == 0.65)
        \/ (r == 1.5 /\ opacity == 0.825))%Q.
Proof.
  intros Hx Hy. unfold StarMap.backgroundStar.
  assert (Hr : 0 <= Z.rem (x * y) 3 < 3) by (apply Z.rem_bound_pos; nia).
  do 2 eexists. split; [reflexivity|].
  assert (C : Z.rem (x * y) 3 = 0 \/ Z.rem (x * y) 3 = 1 \/ Z.rem (x * y) 3 = 2)
    by lia.
  destruct C as [-> | [-> | ->]]; [left | right; left | right; right];
    split; reflexivity.
Qed.

Lemma backgroundStar_sizes_witness :
  exists r opacity,
    StarMap.backgroundStar (239, 107)
    = StarMap.BackgroundStar 239 107 r opacity
    /\ ((r == 0.5 /\ opacity == 0.475)
        \/ (r == 1 /\ opacity == 0.65)
        \/ (r == 1.5 /\ opacity == 0.825))%Q.
Proof. apply backgroundStar_sizes; lia. Defined.

Lemma drawLines_ok dx dy stars ls :
  forallb (fun l : nat * nat =>
             (fst l <? List.length stars)%nat
             && (snd l <? List.length stars)%nat) ls = true ->
  exists els, StarMap.drawLines dx dy stars ls = Some els
              /\ List.length els = List.length ls.
Proof.
  induction ls as [|[s e] rest IH]; cbn [forallb StarMap.drawLines fst snd].
  - intros _. exists []. split; reflexivity.
  - intros H. apply andb_true_iff in H. destruct H as [H Hrest].
    apply andb_true_iff in H. destruct H as [Hs He].
    apply Nat.ltb_lt in Hs, He.
    destruct (nth_error stars s) as [[x1 y1]|] eqn:E1;
      [|apply nth_error_None in E1; lia].
    destruct (nth_error stars e) as [[x2 y2]|] eqn:E2;
      [|apply nth_error_None in E2; lia].
    destruct (IH Hrest) as (els & -> & L).
    eexists. split; [reflexivity|]. cbn [List.length]. rewrite L. reflexivity.
Qed.

Lemma drawStars_length dx dy stars : forall i,
  List.length (StarMap.drawStars dx dy i stars) = List.length stars.
Proof.
  induction stars as [|[x y] rest IH]; intros i; cbn; [reflexivity|].
  rewrite IH. reflexivity.
Qed.

(** Every figure of the catalog, and the default one, can be drawn. *)
Lemma catalog_ok :
  forallb figureOk
    (StarMap.defaultConstellation :: map snd StarMap.constellationData) = true.
Proof. vm_compute. reflexivity. Qed.

Lemma conDataOf_ok c f : StarMap.conDataOf c = Some f -> figureOk f = true.
Proof.
  pose proof catalog_ok as H. rewrite forallb_forall in H.
  unfold StarMap.conDataOf, StarMap.lookup.
  destruct (find _ StarMap.constellationData) as [e|] eqn:F.
  - intros [= <-]. apply H. right. apply in_map.
    apply find_some in F. apply F.
  - destruct (existsb _ _); intros [= <-]. apply H. left. reflexivity.
Qed.

Lemma drawConstellation_ok tz date lat c f :
  StarMap.conDataOf c = Some f ->
  exists els, StarMap.drawConstellation tz date lat c = Some els
              /\ List.length els = figureSize f.
Proof.
  intros E. pose proof (conDataOf_ok c f E) as Ok.
  unfold StarMap.drawConstellation. rewrite E. cbv zeta.
  unfold figureOk in Ok. cbv zeta in Ok.
  apply andb_true_iff in Ok. destruct Ok as [H0 Hl].
  apply Nat.ltb_lt in H0.
  destruct (nth_error (StarMap.stars f) 0) as [[x0 y0]|] eqn:E0;
    [|apply nth_error_None in E0; lia].
  destruct (drawLines_ok (StarMap.xOffset tz date lat)
              (StarMap.yOffset tz date lat) _ _ Hl) as (ls & -> & L).
  eexists. split; [reflexivity|].
  cbn [List.length]. rewrite length_app, drawStars_length, L. reflexivity.
Qed.

Lemma conDataOf_inherited c :
  StarMap.conDataOf c = None
  <-> exists s, c = Some s /\ In s StarMap.objectPrototypeKeys.
Proof.
  unfold StarMap.conDataOf, StarMap.lookup. split.
  - destruct (find _ StarMap.constellationData) as [e|]; [discriminate|].
    destruct (existsb _ _) eqn:X; [|discriminate]. intros _.
    apply existsb_exists in X. destruct X as (k & Hk & Hq).
    apply String.eqb_eq in Hq. subst k.
    destruct c as [s|]; [exists s; tauto|].
    exfalso. cbn in Hk.
    repeat (destruct Hk as [Hk|Hk]; [discriminate Hk|]). exact Hk.
  - intros (s & -> & Hin). cbn in Hin.
    repeat (destruct Hin as [<-|Hin]; [reflexivity|]). destruct Hin.
Qed.

Lemma drawConstellations_ok tz date lat constellations :
  (forall s, In (Some s) constellations ->
             ~ In s StarMap.objectPrototypeKeys) ->
  exists els,
    StarMap.drawConstellations tz date lat constellations = Some els
    /\ List.length els
       = list_sum (map (fun c => figureSize (figureOf c)) constellations).
Proof.
  induction constellations as [|c rest IH]; intros H;
    cbn [StarMap.drawConstellations map list_sum].
  - exists []. split; reflexivity.
  - destruct (StarMap.conDataOf c) as [f|] eqn:E.
    + destruct (drawConstellation_ok tz date lat c f E) as (els & -> & L).
      destruct IH as (more & -> & L').
      { intros s Hs. apply H. right. exact Hs. }
      eexists. split; [reflexivity|].
      rewrite length_app, L, L'. unfold figureOf. rewrite E. reflexivity.
    + apply conDataOf_inherited in E. destruct E as (s & -> & Hin).
      exfalso. apply (H s); [left; reflexivity | exact Hin].
Qed.

Lemma drawLines_joins dx dy stars ls els :
  StarMap.drawLines dx dy stars ls = Some els ->
  Forall2 (lineJoins dx dy stars) ls els.
Proof.
  revert els. induction ls as [|[s e] rest IH]; intros els;
    cbn [StarMap.drawLines].
  - intros [= <-]. constructor.
  - destruct (nth_error stars s) as [[x1 y1]|] eqn:E1; [|discriminate].
    destruct (nth_error stars e) as [[x2 y2]|] eqn:E2; [|discriminate].
    destruct (StarMap.drawLines dx dy stars rest) as [more|]; [|discriminate].
    intros [= <-]. constructor; [|apply IH; reflexivity].
    exists x1, y1, x2, y2. cbn [fst snd]. repeat split; assumption.
Qed.

Lemma drawStars_nth dx dy stars : forall k i x y,
  nth_error stars i = Some (x, y) ->
  nth_error (StarMap.drawStars dx dy k stars) i
  = Some (StarMap.Star (IZR x + dx) (IZR y + dy)
            (2 + Z.of_nat (k + i) mod 3)).
Proof.
  induction stars as [|[x0 y0] rest IH]; intros k [|i] x y;
    cbn [nth_error StarMap.drawStars]; try discriminate.
  - intros [= <- <-]. rewrite Nat.add_0_r. reflexivity.
  - intros H. rewrite (IH (S k) i x y H).
    replace (S k + i)%nat with (k + S i)%nat by lia. reflexivity.
Qed.

Lemma drawConstellation_group tz date lat c els :
  StarMap.drawConstellation tz date lat c = Some els ->
  constellationGroup (StarMap.xOffset tz date lat) (StarMap.yOffset tz date lat)
    c els.
Proof.
  unfold StarMap.drawConstellation, constellationGroup, figureOf. cbv zeta.
  destruct (StarMap.conDataOf c) as [f|]; [|discriminate].
  destruct (nth_error (StarMap.stars f) 0) as [[x0 y0]|]; [|discriminate].
  destruct (StarMap.drawLines _ _ _ _) as [ls|] eqn:L; [|discriminate].
  intros [= <-].
  exists x0, y0, ls,
    (StarMap.drawStars (StarMap.xOffset tz date lat)
       (StarMap.yOffset tz date lat) 0 (StarMap.stars f)).
  split; [reflexivity|]. split; [reflexivity|].
  split; [apply drawLines_joins; exact L|].
  split; [apply drawStars_length|].
  intros i x y H. apply (drawStars_nth _ _ _ 0%nat). exact H.
Qed.

Lemma drawConstellations_groups tz date lat constellations : forall els,
  StarMap.drawConstellations tz date lat constellations = Some els ->
  exists groups,
    els = List.concat groups
    /\ Forall2 (constellationGroup (StarMap.xOffset tz date lat)
                  (StarMap.yOffset tz date lat)) constellations groups.
Proof.
  induction constellations as [|c rest IH]; intros els;
    cbn [StarMap.drawConstellations].
  - intros [= <-]. exists []. split; [reflexivity | constructor].
  - destruct (StarMap.drawConstellation tz date lat c) as [g|] eqn:G;
      [|discriminate].
    destruct (StarMap.drawConstellations tz date lat rest) as [more|];
      [|discriminate].
    intros [= <-]. destruct (IH more eq_refl) as (groups & -> & F).
    exists (g :: groups). split; [reflexivity|].
    constructor; [apply drawConstellation_group; exact G | exact F].
Qed.

(** Unless a constellation is named like a property that every object
    inherits, the star map is produced.  It is the black rectangle of the
    canvas, then the 200 background stars of [getStarField], then one group
    of elements for each constellation of the array, in the order of the
    array: the label, the lines and the stars of its figure, all moved by
    the offset of the date and latitude. *)
Theorem generateStarMapSVG_defined
  (tz : Z -> Z) (constellations : list JsString) (date : Date) (lat lng : Q) :
  (forall s, In (Some s) constellations ->
             ~ In s StarMap.objectPrototypeKeys) ->
  exists els groups,
    StarMap.generateStarMapSVG tz constellations date lat lng = Some els
    /\ els
       = StarMap.Rect 500 300 "black"
         :: map StarMap.backgroundStar (StarMap.getStarField tz date 200)
         ++ List.concat groups
    /\ Forall2 (constellationGroup (StarMap.xOffset tz date lat)
                  (StarMap.yOffset tz date lat)) constellations groups
    /\ List.length els
       = (201 + list_sum (map (fun c => figureSize (figureOf c))
                             constellations))%nat.
Proof.
  intros H. unfold StarMap.generateStarMapSVG. cbv zeta.
  destruct (drawConstellations_ok tz date lat constellations H)
    as (drawn & D & L).
  destruct (drawConstellations_groups tz date lat constellations drawn D)
    as (groups & E & F).
  rewrite D. eexists. exists groups.
  split; [reflexivity|]. split; [rewrite E; reflexivity|].
  split; [exact F|].
  cbn [List.length]. rewrite length_app, length_map, L.
  unfold StarMap.getStarField. rewrite length_map, length_seq. reflexivity.
Qed.

Lemma generateStarMapSVG_defined_witness :
  let cs := [Some "Orion"; None; Some "Draco"]%string in
  exists els groups,
    StarMap.generateStarMapSVG utcHost cs (dateOfDay 10957 0 0 0 0)
      40.7128 (-74.0060) = Some els
    /\ els
       = StarMap.Rect 500 300 "black"
         :: map StarMap.backgroundStar
              (StarMap.getStarField utcHost (dateOfDay 10957 0 0 0 0) 200)
         ++ List.concat groups
    /\ Forall2 (constellationGroup
                  (StarMap.xOffset utcHost (dateOfDay 10957 0 0 0 0) 40.7128)
                  (StarMap.yOffset utcHost (dateOfDay 10957 0 0 0 0) 40.7128))
         cs groups
    /\ List.length els
       = (201 + list_sum (map (fun c => figureSize (figureOf c)) cs))%nat.
Proof.
  intros cs. apply generateStarMapSVG_defined.
  intros s [E|[E|[E|[]]]]; try discriminate E; injection E as <-;
    cbn; intros H;
    repeat (destruct H as [H|H]; [discriminate H|]); exact H.
Defined.

(** A constellation named like an inherited property reads a value that is
    no figure, and the whole star map fails. *)
Theorem generateStarMapSVG_inherited_key
  (tz : Z -> Z) (constellations : list JsString) (date : Date) (lat lng : Q)
  (s : string) :
  In (Some s) constellations ->
  In s StarMap.objectPrototypeKeys ->
  StarMap.generateStarMapSVG tz constellations date lat lng = None.
Proof.
  intros Hin Hk. unfold StarMap.generateStarMapSVG. cbv zeta.
  assert (E : StarMap.drawConstellations tz date lat constellations = None).
  { induction constellations as [|c rest IH]; [destruct Hin|].
    cbn [StarMap.drawConstellations].
    destruct Hin as [->|Hin].
    - unfold StarMap.drawConstellation.
      replace (StarMap.conDataOf (Some s)) with (@None StarMap.Figure);
        [reflexivity|].
      symmetry. apply conDataOf_inherited. exists s. tauto.
    - rewrite (IH Hin). destruct (StarMap.drawConstellation _ _ _ _);
        reflexivity. }
  rewrite E. reflexivity.
Qed.

Lemma generateStarMapSVG_inherited_key_witness :
  StarMap.generateStarMapSVG utcHost [Some "Orion"; Some "toString"]%string
    (dateOfDay 10957 0 0 0 0) 40.7128 (-74.0060) = None.
Proof.
  apply (generateStarMapSVG_inherited_key _ _ _ _ _ "toString"%string).
  - right. left. reflexivity.
  - cbn. tauto.
Defined.

Lemma catalog_names_not_inherited latitude season s :
  In s (map sc_name (constellationsBySeason season))
  \/ In s (circumpolarOf latitude) \/ In s common ->
  ~ In s StarMap.objectPrototypeKeys.
Proof.
  unfold circumpolarOf.
  intros [H|[H|H]];
    [destruct season | destruct (Qgeb latitude 0) |];
    cbn in H;
    repeat (destruct H as [H|H]; [subst s|]); try contradiction;
    cbn; intros K;
    repeat (destruct K as [K|K]; [discriminate K|]); exact K.
Qed.

(** For a date whose local year is not negative, the star map of the
    constellations that [getVisibleConstellations] returns is always
    produced. *)
Theorem generateStarMapSVG_of_visible
  (tz : Z -> Z) (date : Date) (lat lng : Q) :
  0 <= getFullYear tz date ->
  exists els,
    StarMap.generateStarMapSVG tz (getVisibleConstellations tz date lat lng)
      date lat lng = Some els.
Proof.
  intros Hy.
  destruct (getVisibleConstellations_uncut tz date lat lng Hy)
    as (full & E & _ & I).
  destruct (drawConstellations_ok tz date lat
              (getVisibleConstellations tz date lat lng)) as (drawn & D & _).
  { intros s Hs. rewrite E in Hs. apply In_firstn in Hs.
    destruct (I _ Hs) as (s' & [= <-] & Hn).
    exact (catalog_names_not_inherited lat _ s Hn). }
  unfold StarMap.generateStarMapSVG. cbv zeta. rewrite D.
  eexists. reflexivity.
Qed.

Lemma generateStarMapSVG_of_visible_witness :
  let date := dateOfDay 10957 0 0 0 0 in
  exists els,
    StarMap.generateStarMapSVG utcHost
      (getVisibleConstellations utcHost date 40.7128 (-74.0060))
      date 40.7128 (-74.0060) = Some els.
Proof.
  intros date. apply generateStarMapSVG_of_visible. vm_compute. discriminate.
Defined.

Local Open Scope R_scope.

Lemma Q2R_latOffset lat :
  (-90 <= lat)%Q -> (lat <= 90)%Q -> 0 <= Q2R (StarMap.latOffset lat) <= 1.
Proof.
  intros H1 H2. unfold StarMap.latOffset.
  assert (A : (0 <= (90 - Qabs lat) / 90 <= 1)%Q).
  { assert (B : (0 <= Qabs lat <= 90)%Q).
    { split; [apply Qabs_nonneg|]. apply Qabs_Qle_condition. split; lra. }
    split.
    - apply Qle_shift_div_l; [reflexivity | lra].
    - apply Qle_shift_div_r; [reflexivity | lra]. }
  destruct A as [A1 A2]. apply Qle_Rle in A1, A2.
  replace (Q2R 0) with 0 in A1 by (unfold Q2R; cbn; lra).
  replace (Q2R 1) with 1 in A2 by (unfold Q2R; cbn; lra).
  split; assumption.
Qed.

(** For a latitude between -90 and 90, a constellation is moved by at most
    75 to the left or 25 to the right, and by at most 45 up or 15 down; at
    the poles it is not moved. *)
Theorem starMap_offsets_bounded (tz : Z -> Z) (date : Date) (lat : Q) :
  (-90 <= lat)%Q -> (lat <= 90)%Q ->
  -75 <= StarMap.xOffset tz date lat <= 25
  /\ -45 <= StarMap.yOffset tz date lat <= 15.
Proof.
  intros H1 H2. pose proof (Q2R_latOffset lat H1 H2) as [L0 L1].
  unfold StarMap.xOffset, StarMap.yOffset.
  set (a := Q2R (StarMap.hourAngle tz date) * PI / 180).
  pose proof (SIN_bound a) as [S1 S2]. pose proof (COS_bound a) as [C1 C2].
  set (l := Q2R (StarMap.latOffset lat)) in *. clearbody l.
  generalize dependent (sin a). generalize dependent (cos a).
  intros c C1 C2 s S1 S2. split; split; nra.
Qed.

Lemma starMap_offsets_bounded_witness :
  let date := dateOfDay 10957 0 0 0 0 in
  -75 <= StarMap.xOffset utcHost date 40.7128 <= 25
  /\ -45 <= StarMap.yOffset utcHost date 40.7128 <= 15.
Proof.
  intros date. apply starMap_offsets_bounded; vm_compute; discriminate.
Defined.


(** ** getMoonPhase: the name and the illumination *)

Local Open Scope R_scope.

Lemma half_cosine_sin x :
  0.5 * (1 - cos (2 * PI * x)) = sin (PI * x) * sin (PI * x).
Proof.
  replace (2 * PI * x) with (2 * (PI * x)) by ring.
  rewrite cos_2a_sin. lra.
Qed.

Lemma sin_sqr_le y : -1 <= y <= 1 -> sin y * sin y <= y * y.
Proof.
  intros [H1 H2]. pose proof PI2_1 as P.
  destruct (Rtotal_order y 0) as [Hn|[->|Hp]].
  - pose proof (sin_gt_x y Hn).
    assert (0 <= sin (- y)) by (apply sin_ge_0; lra).
    rewrite sin_neg in *. nra.
  - rewrite sin_0. lra.
  - pose proof (sin_lt_x y Hp).
    assert (0 <= sin y) by (apply sin_ge_0; lra).
    nra.
Qed.

Lemma sin_abs_le y : -1 <= y <= 1 -> - Rabs y <= sin y <= Rabs y.
Proof.
  intros [H1 H2]. pose proof PI2_1 as P.
  destruct (Rtotal_order y 0) as [Hn|[->|Hp]].
  - pose proof (sin_gt_x y Hn).
    assert (0 <= sin (- y)) by (apply sin_ge_0; lra).
    rewrite sin_neg in *. rewrite Rabs_left by lra. lra.
  - rewrite sin_0, Rabs_R0. lra.
  - pose proof (sin_lt_x y Hp).
    assert (0 <= sin y) by (apply sin_ge_0; lra).
    rewrite Rabs_right by lra. lra.
Qed.

Lemma half_cosine_new x :
  0 <= x < 0.025 \/ 0.975 <= x < 1 -> 0.5 * (1 - cos (2 * PI * x)) <= 0.01.
Proof.
  intros H. rewrite half_cosine_sin.
  pose proof PI_4 as P4. pose proof PI_RGT_0 as P0.
  assert (G : forall a, 0 <= a <= 0.1 -> sin a * sin a <= 0.01).
  { intros a Ha. pose proof (sin_sqr_le a). nra. }
  destruct H as [H|H].
  - apply G. nra.
  - rewrite <- (sin_PI_x (PI * x)). apply G. nra.
Qed.

Lemma half_cosine_full x :
  0.475 <= x < 0.525 -> 0.99 <= 0.5 * (1 - cos (2 * PI * x)).
Proof.
  intros H. rewrite half_cosine_sin.
  pose proof PI_4 as P4. pose proof PI_RGT_0 as P0.
  replace (PI * x) with (PI / 2 + PI * (x - 0.5)) by lra.
  rewrite <- cos_sin.
  set (d := PI * (x - 0.5)).
  assert (Hd : -0.1 <= d <= 0.1) by (subst d; nra).
  replace d with (2 * (d / 2)) by lra. rewrite cos_2a_sin.
  pose proof (sin_sqr_le (d / 2)). nra.
Qed.

Lemma half_cosine_first_quarter x :
  0.225 <= x < 0.275 -> 0.4 <= 0.5 * (1 - cos (2 * PI * x)) <= 0.6.
Proof.
  intros H. pose proof PI_4 as P4. pose proof PI_RGT_0 as P0.
  set (e := 2 * PI * (x - 0.25)).
  assert (He : -0.2 <= e <= 0.2) by (subst e; nra).
  replace (2 * PI * x) with (PI / 2 + e) by (subst e; lra).
  pose proof (sin_cos e) as S. pose proof (sin_abs_le e) as A.
  assert (Rabs e <= 0.2) by (apply Rabs_le; lra).
  lra.
Qed.

Lemma half_cosine_last_quarter x :
  0.725 <= x < 0.775 -> 0.4 <= 0.5 * (1 - cos (2 * PI * x)) <= 0.6.
Proof.
  intros H. pose proof PI_4 as P4. pose proof PI_RGT_0 as P0.
  set (e := 2 * PI * (x - 0.75)).
  assert (He : -0.2 <= e <= 0.2) by (subst e; nra).
  replace (2 * PI * x) with (PI / 2 + e + PI) by (subst e; lra).
  rewrite neg_cos.
  pose proof (sin_cos e) as S. pose proof (sin_abs_le e) as A.
  assert (Rabs e <= 0.2) by (apply Rabs_le; lra).
  lra.
Qed.

Lemma half_cosine_crescent x :
  0.025 <= x < 0.225 \/ 0.775 <= x < 0.975 ->
  0 < 0.5 * (1 - cos (2 * PI * x)) < 0.5.
Proof.
  intros H. pose proof PI_RGT_0 as P0.
  split; [apply half_cosine_pos; lra|].
  assert (C : 0 < cos (2 * PI * x)); [|lra].
  destruct H as [H|H].
  - apply cos_gt_0; nra.
  - replace (2 * PI * x) with (2 * PI * (x - 1) + 2 * INR 1 * PI)
      by (cbn [INR]; lra).
    rewrite cos_period. apply cos_gt_0; nra.
Qed.

Lemma half_cosine_gibbous x :
  0.275 <= x < 0.475 \/ 0.525 <= x < 0.725 ->
  0.5 < 0.5 * (1 - cos (2 * PI * x)).
Proof.
  intros H. pose proof PI_RGT_0 as P0.
  assert (C : cos (2 * PI * x) < 0); [|lra].
  apply cos_lt_0; destruct H; nra.
Qed.

Lemma Q2R_bounds p lo hi :
  (lo <= p)%Q -> (p < hi)%Q -> Q2R lo <= Q2R p < Q2R hi.
Proof. intros H1 H2. split; [apply Qle_Rle | apply Qlt_Rlt]; assumption. Qed.

Lemma getMoonPhase_phase_lt_1 tz d :
  (MoonPhaseData.phase (getMoonPhase tz d) < 1)%Q.
Proof.
  rewrite getMoonPhase_phase.
  pose proof (js_rem_bounds (getJulianDay tz d - 2451550.1) 29.53059 eq_refl)
    as [_ H].
  apply Qlt_shift_div_r; [reflexivity | lra].
Qed.

(** Turns the bounds of a branch of the phase table into bounds on the real
    number [x] that stands for the phase. *)
Ltac phase_bounds x :=
  repeat match goal with
         | H : (_ <= _)%Q |- _ => apply Qle_Rle in H
         | H : (_ < _)%Q |- _ => apply Qlt_Rlt in H
         | H : ~ (_ < _)%Q |- _ => apply Qnot_lt_le in H
         end;
  repeat match goal with
         | H : context [Q2R ?c] |- _ =>
             lazymatch c with
             | Qmake _ _ =>
                 let v := fresh "v" in
                 let E := fresh "E" in
                 remember (Q2R c) as v eqn:E in *;
                 unfold Q2R in E; cbn [Qnum Qden] in E
             end
         end.

(** For a result whose phase is not negative the name agrees with the
    illumination: at most 1% at new moon, at least 99% at full moon, within
    10 points of one half at the quarters, under one half for a crescent
    and over one half for a gibbous moon. *)
Theorem getMoonPhase_name_illumination (tz : Z -> Z) (d : Date) :
  (0 <= MoonPhaseData.phase (getMoonPhase tz d))%Q ->
  let name := MoonPhaseData.name (getMoonPhase tz d) in
  let i := MoonPhaseData.illumination (getMoonPhase tz d) in
  (name = "New Moon"%string -> i <= 0.01)
  /\ (name = "Waxing Crescent"%string \/ name = "Waning Crescent"%string ->
      0 < i < 0.5)
  /\ (name = "First Quarter"%string \/ name = "Last Quarter"%string ->
      0.4 <= i <= 0.6)
  /\ (name = "Waxing Gibbous"%string \/ name = "Waning Gibbous"%string ->
      0.5 < i)
  /\ (name = "Full Moon"%string -> 0.99 <= i).
Proof.
  intros H0. cbv zeta.
  pose proof (getMoonPhase_phase_lt_1 tz d) as H1.
  rewrite getMoonPhase_name, getMoonPhase_illumination_eq.
  set (p := MoonPhaseData.phase (getMoonPhase tz d)) in *. clearbody p.
  unfold phaseNameEmoji.
  destruct (Qltb_spec p 0.025) as [A|A]; cbn [orb].
  { cbn [fst].
    (split; [|split; [|split; [|split]]]); intros G;
      try (destruct G as [G|G]); try discriminate G.
    apply half_cosine_new. left. phase_bounds p. subst. lra. }
  destruct (Qgeb p 0.975) eqn:B; [apply Qgeb_ge in B | apply Qgeb_lt in B].
  { cbn [fst].
    (split; [|split; [|split; [|split]]]); intros G;
      try (destruct G as [G|G]); try discriminate G.
    apply half_cosine_new. right. phase_bounds p. subst. lra. }
  destruct (Qltb_spec p 0.225) as [C1|C1].
  { cbn [fst].
    (split; [|split; [|split; [|split]]]); intros G;
      try (destruct G as [G|G]); try discriminate G.
    all: apply half_cosine_crescent; left; phase_bounds p; subst; lra. }
  destruct (Qltb_spec p 0.275) as [C2|C2].
  { cbn [fst].
    (split; [|split; [|split; [|split]]]); intros G;
      try (destruct G as [G|G]); try discriminate G.
    all: apply half_cosine_first_quarter; phase_bounds p; subst; lra. }
  destruct (Qltb_spec p 0.475) as [C3|C3].
  { cbn [fst].
    (split; [|split; [|split; [|split]]]); intros G;
      try (destruct G as [G|G]); try discriminate G.
    all: apply half_cosine_gibbous; left; phase_bounds p; subst; lra. }
  destruct (Qltb_spec p 0.525) as [C4|C4].
  { cbn [fst].
    (split; [|split; [|split; [|split]]]); intros G;
      try (destruct G as [G|G]); try discriminate G.
    all: apply half_cosine_full; phase_bounds p; subst; lra. }
  destruct (Qltb_spec p 0.725) as [C5|C5].
  { cbn [fst].
    (split; [|split; [|split; [|split]]]); intros G;
      try (destruct G as [G|G]); try discriminate G.
    all: apply half_cosine_gibbous; right; phase_bounds p; subst; lra. }
  destruct (Qltb_spec p 0.775) as [C6|C6].
  { cbn [fst].
    (split; [|split; [|split; [|split]]]); intros G;
      try (destruct G as [G|G]); try discriminate G.
    all: apply half_cosine_last_quarter; phase_bounds p; subst; lra. }
  cbn [fst].
  (split; [|split; [|split; [|split]]]); intros G;
      try (destruct G as [G|G]); try discriminate G.
  all: apply half_cosine_crescent; right; phase_bounds p; subst; lra.
Qed.

Lemma getMoonPhase_name_illumination_witness :
  let d := dateOfDay 10977 12 0 0 0 in
  let name := MoonPhaseData.name (getMoonPhase utcHost d) in
  let i := MoonPhaseData.illumination (getMoonPhase utcHost d) in
  (name = "New Moon"%string -> i <= 0.01)
  /\ (name = "Waxing Crescent"%string \/ name = "Waning Crescent"%string ->
      0 < i < 0.5)
  /\ (name = "First Quarter"%string \/ name = "Last Quarter"%string ->
      0.4 <= i <= 0.6)
  /\ (name = "Waxing Gibbous"%string \/ name = "Waning Gibbous"%string ->
      0.5 < i)
  /\ (name = "Full Moon"%string -> 0.99 <= i).
Proof.
  intros d. apply getMoonPhase_name_illumination.
  rewrite getMoonPhase_phase. vm_compute. discriminate.
Defined.


(** ** getVisiblePlanets: magnitudes *)

Local Open Scope Q_scope.

Lemma planetCase_magnitude name phase lo hi :
  0 <= phase -> phase <= 1 ->
  documentedMagnitude name = Some (lo, hi) ->
  lo <= snd (planetCase name phase) <= hi.
Proof.
  intros H0 H1. unfold documentedMagnitude, planetCase.
  assert (A : 0 <= Qabs (phase - 0.5) <= 0.5).
  { split; [apply Qabs_nonneg|]. apply Qabs_Qle_condition. split; lra. }
  set (a := Qabs (phase - 0.5)) in *. clearbody a.
  destruct (String.eqb name "Mercury");
    [|destruct (String.eqb name "Venus");
      [|destruct (String.eqb name "Mars");
        [|destruct (String.eqb name "Jupiter");
          [|destruct (String.eqb name "Saturn"); [|discriminate]]]]];
    intros [= <- <-];
    repeat match goal with
           | |- context [if ?b then _ else _] => destruct b
           end;
    cbn [snd]; split; lra.
Qed.

Lemma orbit_phase_range jd period :
  2451545 <= jd -> 0 < period ->
  0 <= js_rem (jd - 2451545.0) period / period
  /\ js_rem (jd - 2451545.0) period / period <= 1.
Proof.
  intros Hj Hp.
  assert (Hd : 0 <= jd - 2451545.0) by lra.
  pose proof (js_rem_nonneg _ period Hd Hp) as [R0 R1].
  split.
  - apply Qle_shift_div_l; [assumption | lra].
  - apply Qle_shift_div_r; [assumption | lra].
Qed.

Lemma planetStep_magnitude tz date jd result name period lo hi :
  2451545 <= jd -> 0 < period ->
  documentedMagnitude name = Some (lo, hi) ->
  Forall magnitudeDocumented result ->
  Forall magnitudeDocumented (planetStep tz date jd result (name, period)).
Proof.
  intros Hj Hp Hd F. unfold planetStep.
  destruct (orbit_phase_range jd period Hj Hp) as [P0 P1].
  pose proof (planetCase_magnitude name _ lo hi P0 P1 Hd) as M.
  destruct (planetCase name _) as [[description isVisible] magnitude].
  cbn [snd] in M.
  destruct (_ && _); [exact F|].
  destruct isVisible; [|exact F].
  apply Forall_app. split; [exact F|]. constructor; [|constructor].
  exists lo, hi. cbn. split; [exact Hd|].
  unfold roundingMargin. split; lra.
Qed.

Lemma addBackup_Forall (P : PlanetData.t -> Prop) ps : forall result,
  Forall P ps -> Forall P result -> Forall P (addBackup ps result).
Proof.
  induction ps as [|planet rest IH]; intros result Fp Fr; cbn [addBackup];
    [exact Fr|].
  inversion Fp as [|? ? Pp Frest]; subst.
  assert (Fr' : Forall P (result ++ [planet])).
  { apply Forall_app. split; [exact Fr | constructor; [exact Pp|constructor]]. }
  destruct (negb _); [|apply IH; assumption].
  destruct (2 <=? _)%nat; [exact Fr' | apply IH; assumption].
Qed.

(** From the epoch J2000 on, the magnitude of every planet returned lies in
    the range that the code documents for that planet, up to the rounding
    margin of one billionth. *)
Theorem getVisiblePlanets_magnitudes
  (tz : Z -> Z) (date : Date) (latitude longitude : Q) :
  2451545 <= getJulianDay tz date ->
  Forall magnitudeDocumented (getVisiblePlanets tz date latitude longitude).
Proof.
  intros Hj. unfold getVisiblePlanets. cbv zeta.
  assert (F : Forall magnitudeDocumented
                (fold_left (planetStep tz date (getJulianDay tz date))
                   periods [])).
  { unfold periods. cbn [fold_left].
    repeat (eapply planetStep_magnitude;
            [exact Hj | reflexivity | reflexivity |]).
    constructor. }
  destruct (_ <? 2)%nat; [|exact F].
  apply addBackup_Forall; [|exact F].
  unfold backup.
  constructor; [|constructor; [|constructor]];
    do 2 eexists; (split; [reflexivity|]); cbn; split; discriminate.
Qed.

Lemma getVisiblePlanets_magnitudes_witness :
  Forall magnitudeDocumented
    (getVisiblePlanets utcHost (dateOfDay 10977 0 0 0 0) 38.75 (-77.48)).
Proof.
  apply getVisiblePlanets_magnitudes. vm_compute. discriminate.
Defined.


(** ** formatDate *)

Local Open Scope Z_scope.

Lemma ordinalSuffix_days day :
  1 <= day <= 31 ->
  (ordinalSuffix day = "st"%string <-> day = 1 \/ day = 21 \/ day = 31)
  /\ (ordinalSuffix day = "nd"%string <-> day = 2 \/ day = 22)
  /\ (ordinalSuffix day = "rd"%string <-> day = 3 \/ day = 23).
Proof.
  intros H.
  assert (C : day = 1 \/ day = 2 \/ day = 3 \/ day = 4 \/ day = 5 \/ day = 6
              \/ day = 7 \/ day = 8 \/ day = 9 \/ day = 10 \/ day = 11
              \/ day = 12 \/ day = 13 \/ day = 14 \/ day = 15 \/ day = 16
              \/ day = 17 \/ day = 18 \/ day = 19 \/ day = 20 \/ day = 21
              \/ day = 22 \/ day = 23 \/ day = 24 \/ day = 25 \/ day = 26
              \/ day = 27 \/ day = 28 \/ day = 29 \/ day = 30 \/ day = 31)
    by lia.
  repeat (destruct C as [->|C]); try subst day; cbn;
    (split; [|split]); split; intros G; try discriminate G; try lia;
    try reflexivity.
Qed.

(** The suffix that [formatDate] gives to the day of a date: st on the 1st,
    21st and 31st, nd on the 2nd and 22nd, rd on the 3rd and 23rd, and th on
    every other day, the 11th, 12th and 13th among them. *)
Theorem formatDate_suffix (tz : Z -> Z) (date : Date) :
  let day := getDate tz date in
  (ordinalSuffix day = "st"%string <-> day = 1 \/ day = 21 \/ day = 31)
  /\ (ordinalSuffix day = "nd"%string <-> day = 2 \/ day = 22)
  /\ (ordinalSuffix day = "rd"%string <-> day = 3 \/ day = 23)
  /\ (ordinalSuffix day = "th"%string
      <-> ~ (day = 1 \/ day = 21 \/ day = 31 \/ day = 2 \/ day = 22
             \/ day = 3 \/ day = 23)).
Proof.
  cbv zeta.
  pose proof (DateFromTime_range (LocalTime tz (timeValue date))) as R.
  fold (getDate tz date) in R.
  destruct (ordinalSuffix_days _ R) as (S1 & S2 & S3).
  split; [exact S1|]. split; [exact S2|]. split; [exact S3|].
  assert (T : ordinalSuffix (getDate tz date) = "st"%string
              \/ ordinalSuffix (getDate tz date) = "nd"%string
              \/ ordinalSuffix (getDate tz date) = "rd"%string
              \/ ordinalSuffix (getDate tz date) = "th"%string).
  { unfold ordinalSuffix. cbv zeta.
    repeat match goal with
           | |- context [if ?b then _ else _] => destruct b
           end; tauto. }
  split.
  - intros G N. rewrite G in S1, S2, S3.
    destruct N as [N|[N|[N|[N|[N|[N|N]]]]]];
      [ assert (X : "th"%string = "st"%string) by (apply S1; tauto)
      | assert (X : "th"%string = "st"%string) by (apply S1; tauto)
      | assert (X : "th"%string = "st"%string) by (apply S1; tauto)
      | assert (X : "th"%string = "nd"%string) by (apply S2; tauto)
      | assert (X : "th"%string = "nd"%string) by (apply S2; tauto)
      | assert (X : "th"%string = "rd"%string) by (apply S3; tauto)
      | assert (X : "th"%string = "rd"%string) by (apply S3; tauto) ];
      discriminate X.
  - intros N. destruct T as [T|[T|[T|T]]]; [| | |exact T]; exfalso; apply N.
    + apply S1 in T. tauto.
    + apply S2 in T. tauto.
    + apply S3 in T. tauto.
Qed.

(** ** validateUserInput *)

Lemma trimStart_suffix s : exists dropped, s = dropped ++ trimStart s.
Proof.
  induction s as [|c rest [dropped IH]]; cbn; [exists []; reflexivity|].
  destruct (isWhiteSpace c).
  - exists (c :: dropped). cbn. rewrite <- IH. reflexivity.
  - exists []. reflexivity.
Qed.

Lemma trim_infix s : exists before after, s = before ++ trim s ++ after.
Proof.
  unfold trim.
  destruct (trimStart_suffix s) as [before E1].
  destruct (trimStart_suffix (rev (trimStart s))) as [after E2].
  exists before, (rev after).
  rewrite <- rev_app_distr, <- E2, rev_involutive. exact E1.
Qed.

Lemma trimStart_id s :
  match s with [] => True | c :: _ => isWhiteSpace c = false end ->
  trimStart s = s.
Proof. destruct s as [|c rest]; cbn; [reflexivity|]. intros ->. reflexivity. Qed.

(** The result has at most 100 code units, holds none of the six removed
    characters, and every one of its code units comes from the input. *)
Theorem validateUserInput_safe (input : JsText) :
  (List.length (validateUserInput input) <= 100)%nat
  /\ Forall (fun c => ~ In c [60; 62; 92; 47; 34; 39])
       (validateUserInput input)
  /\ incl (validateUserInput input) input.
Proof.
  unfold validateUserInput. cbv zeta. split; [apply firstn_le_length|].
  split.
  - apply Forall_forall. intros c Hc. apply In_firstn in Hc.
    apply filter_In in Hc. destruct Hc as [_ Hd].
    apply negb_true_iff in Hd. unfold isDangerous in Hd.
    intros Hin. assert (T : existsb (Z.eqb c) [60; 62; 92; 47; 34; 39] = true).
    { apply existsb_exists. exists c. split; [exact Hin | apply Z.eqb_refl]. }
    congruence.
  - intros c Hc. apply In_firstn in Hc. apply filter_In in Hc.
    destruct Hc as [Hc _].
    destruct (trim_infix input) as (before & after & E).
    rewrite E. apply in_or_app. right. apply in_or_app. left. exact Hc.
Qed.

(** An input of at most 100 code units that neither begins nor ends with
    white space and holds none of the six characters is returned as it
    is. *)
Theorem validateUserInput_clean (input : JsText) :
  (List.length input <= 100)%nat ->
  match input with [] => True | c :: _ => isWhiteSpace c = false end ->
  match rev input with [] => True | c :: _ => isWhiteSpace c = false end ->
  Forall (fun c => isDangerous c = false) input ->
  validateUserInput input = input.
Proof.
  intros Hl Hs He Hd. unfold validateUserInput, trim. cbv zeta.
  rewrite (trimStart_id input Hs), (trimStart_id (rev input) He),
    rev_involutive.
  assert (K : filter (fun c => negb (isDangerous c)) input = input).
  { clear - Hd. induction Hd as [|c rest Hc _ IH]; cbn [filter];
      [reflexivity|].
    rewrite Hc. cbn [negb]. f_equal. exact IH. }
  rewrite firstn_all2.
  - exact K.
  - etransitivity; [apply filter_length_le | exact Hl].
Qed.

Lemma validateUserInput_clean_witness :
  validateUserInput [35; 70; 70; 70; 68; 69; 55] = [35; 70; 70; 70; 68; 69; 55].
Proof.
  apply validateUserInput_clean.
  - cbn. lia.
  - reflexivity.
  - reflexivity.
  - repeat constructor.
Defined.
